(** * A shallow embedding of the claim indexing core of lbryumx
    (src/lbryumx/block_processor.py, class LBRYBlockProcessor).

    Byte strings ([bytes] in Python) are [string]s.  Each Python dict that
    serves as a write-back cache is a [gmap]; the staged-deletion sentinel
    [None] of a cache is [None] of an [option] value.  The persistent stores
    hold decoded values: msgpack and [ClaimInfo.serialized] round-trip and
    never produce empty byte strings, so the truthiness tests of the source
    on a stored serialized value are tests of presence.

    Python methods become functions in a state and exception monad [M]:
    an exception ends the computation with [Err]. *)

From stdpp Require Import base gmap strings list fin_maps.
From Stdlib Require Import ZArith Ascii String Lia.

Open Scope Z_scope.

(** ** Data model (lbryumx.model) *)

Record ClaimInfo := mkClaimInfo {
  ci_name : string;
  ci_value : string;
  ci_txid : string;
  ci_nout : Z;
  ci_amount : Z;
  ci_address : string;
  ci_height : Z;
  ci_cert_id : option string
}.

(** The [claim] attribute of an output. *)
Inductive OutputClaim :=
| NoClaim
| NameClaim (name value : string)
| ClaimUpdate (name claim_id value : string)
| ClaimSupport (name claim_id : string).

Record TxOutput := mkTxOutput {
  out_value : Z;
  out_pk_script : string;
  out_claim : OutputClaim
}.

Record TxInput := mkTxInput {
  prev_hash : string;
  prev_idx : Z
}.

Record Tx := mkTx {
  tx_inputs : list TxInput;
  tx_outputs : list TxOutput
}.

Definition is_claim (c : OutputClaim) : bool :=
  match c with NoClaim => false | _ => true end.

(** [tx.has_claims]: some output carries a claim. *)
Definition has_claims (tx : Tx) : bool :=
  existsb (fun o => is_claim (out_claim o)) (tx_outputs tx).

Global Instance TxInput_eq_dec : EqDecision TxInput.
Proof. intros [a b] [c d]; unfold Decision; decide equality; apply decide; apply _. Defined.

(** A names value: claim id -> sequence number. *)
Abbreviation NamesDict := (gmap string Z).

(** An undo record: [(claim_id, prior ClaimInfo or None)]. *)
Abbreviation UndoEntry := (string * option ClaimInfo)%type.

(** ** The processor's state *)

Record State := mkState {
  claim_cache : gmap string (option ClaimInfo);
  claims_for_name_cache : gmap string NamesDict;
  claims_signed_by_cert_cache : gmap string (list string);
  outpoint_to_claim_id_cache : gmap string (option string);
  (** [pending_abandons]: a dict claim id -> outpoints, in insertion order *)
  pending_abandons : list (string * list (string * Z));
  claims_db : gmap string ClaimInfo;
  names_db : gmap string NamesDict;
  signatures_db : gmap string (list string);
  outpoint_to_claim_id_db : gmap string string;
  claim_undo_db : gmap string (list UndoEntry);
  should_validate_signatures : bool;
  (** the [REJECTED: txid updating claim_id] lines of [log_error] *)
  error_log : list (string * string)
}.

Inductive Exn :=
| KeyError
| AttributeError
| AssertionError
| StructError
| TypeError
| InconsistentDatabase.

Inductive Result (A : Type) :=
| Ok (a : A) (st : State)
| Err (e : Exn).
Arguments Ok {A} a st.
Arguments Err {A} e.

Definition M (A : Type) := State -> Result A.

Definition ret {A} (a : A) : M A := fun st => Ok a st.
Definition raise {A} (e : Exn) : M A := fun _ => Err e.
Definition bind {A B} (m : M A) (k : A -> M B) : M B :=
  fun st => match m st with Ok a st' => k a st' | Err e => Err e end.
Definition get_state : M State := fun st => Ok st st.
Definition put_state (st : State) : M unit := fun _ => Ok tt st.
Definition gets {A} (f : State -> A) : M A := fun st => Ok (f st) st.

Declare Scope py_scope.
Delimit Scope py_scope with py.
Notation "x <- m ;; k" := (bind m (fun x => k))
  (at level 100, m at next level, right associativity) : py_scope.
Notation "m ;; k" := (bind m (fun _ => k))
  (at level 100, right associativity) : py_scope.
Open Scope py_scope.

(** Record updates of the state. *)
Definition set_claim_cache (c : gmap string (option ClaimInfo)) (st : State) : State :=
  mkState c (claims_for_name_cache st) (claims_signed_by_cert_cache st)
    (outpoint_to_claim_id_cache st) (pending_abandons st) (claims_db st) (names_db st)
    (signatures_db st) (outpoint_to_claim_id_db st) (claim_undo_db st)
    (should_validate_signatures st) (error_log st).
Definition set_names_cache (c : gmap string NamesDict) (st : State) : State :=
  mkState (claim_cache st) c (claims_signed_by_cert_cache st)
    (outpoint_to_claim_id_cache st) (pending_abandons st) (claims_db st) (names_db st)
    (signatures_db st) (outpoint_to_claim_id_db st) (claim_undo_db st)
    (should_validate_signatures st) (error_log st).
Definition set_cert_cache (c : gmap string (list string)) (st : State) : State :=
  mkState (claim_cache st) (claims_for_name_cache st) c
    (outpoint_to_claim_id_cache st) (pending_abandons st) (claims_db st) (names_db st)
    (signatures_db st) (outpoint_to_claim_id_db st) (claim_undo_db st)
    (should_validate_signatures st) (error_log st).
Definition set_outpoint_cache (c : gmap string (option string)) (st : State) : State :=
  mkState (claim_cache st) (claims_for_name_cache st) (claims_signed_by_cert_cache st)
    c (pending_abandons st) (claims_db st) (names_db st)
    (signatures_db st) (outpoint_to_claim_id_db st) (claim_undo_db st)
    (should_validate_signatures st) (error_log st).
Definition set_pending (p : list (string * list (string * Z))) (st : State) : State :=
  mkState (claim_cache st) (claims_for_name_cache st) (claims_signed_by_cert_cache st)
    (outpoint_to_claim_id_cache st) p (claims_db st) (names_db st)
    (signatures_db st) (outpoint_to_claim_id_db st) (claim_undo_db st)
    (should_validate_signatures st) (error_log st).
Definition set_error_log (l : list (string * string)) (st : State) : State :=
  mkState (claim_cache st) (claims_for_name_cache st) (claims_signed_by_cert_cache st)
    (outpoint_to_claim_id_cache st) (pending_abandons st) (claims_db st) (names_db st)
    (signatures_db st) (outpoint_to_claim_id_db st) (claim_undo_db st)
    (should_validate_signatures st) l.
Definition set_dbs (cdb : gmap string ClaimInfo) (ndb : gmap string NamesDict)
    (sdb : gmap string (list string)) (odb : gmap string string) (st : State) : State :=
  mkState (claim_cache st) (claims_for_name_cache st) (claims_signed_by_cert_cache st)
    (outpoint_to_claim_id_cache st) (pending_abandons st) cdb ndb sdb odb
    (claim_undo_db st) (should_validate_signatures st) (error_log st).
Definition set_undo_db (u : gmap string (list UndoEntry)) (st : State) : State :=
  mkState (claim_cache st) (claims_for_name_cache st) (claims_signed_by_cert_cache st)
    (outpoint_to_claim_id_cache st) (pending_abandons st) (claims_db st) (names_db st)
    (signatures_db st) (outpoint_to_claim_id_db st) u
    (should_validate_signatures st) (error_log st).

Definition modify (f : State -> State) : M unit := fun st => Ok tt (f st).

(** ** Bytes helpers *)

(** Truthiness of a Python value that is [None] or a byte string. *)
Definition truthy (v : option string) : bool :=
  match v with Some s => negb (String.eqb s EmptyString) | None => false end.

Definition byte_of (z : Z) : ascii := ascii_of_N (Z.to_N z).

(** [struct.pack('>I', n)]: four big-endian bytes; [struct.error] out of range. *)
Definition pack_u32_be (n : Z) : option string :=
  if (0 <=? n) && (n <? 2 ^ 32) then
    Some (String (byte_of (Z.land (Z.shiftr n 24) 255))
         (String (byte_of (Z.land (Z.shiftr n 16) 255))
         (String (byte_of (Z.land (Z.shiftr n 8) 255))
         (String (byte_of (Z.land n 255)) EmptyString))))
  else None.

(** [tx_hash + struct.pack('>I', tx_idx)] *)
Definition outpoint_key (tx_hash : string) (tx_idx : Z) : M string :=
  match pack_u32_be tx_idx with
  | Some p => ret (String.append tx_hash p)
  | None => raise StructError
  end.

(** [s[::-1]] *)
Fixpoint string_rev (s : string) : string :=
  match s with
  | EmptyString => EmptyString
  | String c r => String.append (string_rev r) (String c EmptyString)
  end.

(** ** Collaborators outside the repository *)

(** [hashlib]: SHA-256 and RIPEMD-160 digests. *)
Class Hashing := {
  sha256 : string -> string;
  ripemd160 : string -> string
}.

(** The coin parameters and lbryschema.  A parser that raises is a [false]
    or [None] result here. *)
Class Schema := {
  (** [self.coin.address_from_script] *)
  address_from_script : string -> string;
  (** [parse_lbry_uri(name.decode())] returns without raising *)
  parse_lbry_uri_ok : string -> bool;
  (** [Claim.FromString(value).publisherSignature.certificateId];
      [None] when parsing raises, [Some ""] when there is no signature *)
  certificate_id_of : string -> option string;
  (** [smart_decode(value).validate_signature(address, smart_decode(cert_value))]
      returns without raising *)
  signature_valid : string -> string -> string -> bool
}.

Section Processor.
Context `{Hashing} `{Schema}.

(** ** [claim_id_hash] *)

Definition claim_id_hash (txid : string) (n : Z) : option string :=
  match pack_u32_be n with
  | Some packed => Some (ripemd160 (sha256 (String.append txid packed)))
  | None => None
  end.

(** ** The cache layer *)

Definition get_claim_info (claim_id : string) : M (option ClaimInfo) :=
  gets (fun st =>
    (* self.claim_cache.get(claim_id) or self.claims_db.get(claim_id) *)
    match mjoin (claim_cache st !! claim_id) with
    | Some ci => Some ci
    | None => claims_db st !! claim_id
    end).

Definition put_claim_info (claim_id : string) (ci : ClaimInfo) : M unit :=
  modify (fun st => set_claim_cache (<[claim_id := Some ci]> (claim_cache st)) st).

Definition put_claim_id_for_outpoint (tx_hash : string) (tx_idx : Z)
    (claim_id : option string) : M unit :=
  key <- outpoint_key tx_hash tx_idx ;;
  modify (fun st =>
    set_outpoint_cache (<[key := claim_id]> (outpoint_to_claim_id_cache st)) st).

Definition remove_claim_id_for_outpoint (tx_hash : string) (tx_idx : Z) : M unit :=
  key <- outpoint_key tx_hash tx_idx ;;
  modify (fun st =>
    set_outpoint_cache (<[key := None]> (outpoint_to_claim_id_cache st)) st).

Definition get_claim_id_from_outpoint (tx_hash : string) (tx_idx : Z) : M (option string) :=
  key <- outpoint_key tx_hash tx_idx ;;
  gets (fun st =>
    (* self.outpoint_to_claim_id_cache.get(key) or self.outpoint_to_claim_id_db.get(key) *)
    let cached := mjoin (outpoint_to_claim_id_cache st !! key) in
    if truthy cached then cached else outpoint_to_claim_id_db st !! key).

Definition get_claims_for_name (name : string) : M NamesDict :=
  gets (fun st =>
    match claims_for_name_cache st !! name with
    | Some claims => claims
    | None =>
        match names_db st !! name with
        | Some db_claims => db_claims
        | None => ∅
        end
    end).

(** [max(claims.values() or [0])] *)
Definition max_values (claims : NamesDict) : Z :=
  match map_to_list claims with
  | [] => 0
  | (_, v) :: rest => foldr Z.max v (map snd rest)
  end.

Definition put_claim_for_name (name claim_id : string) : M unit :=
  claims <- get_claims_for_name name ;;
  (* claims.setdefault(claim_id, max(claims.values() or [0]) + 1) *)
  let claims' :=
    match claims !! claim_id with
    | Some _ => claims
    | None => <[claim_id := max_values claims + 1]> claims
    end in
  modify (fun st => set_names_cache (<[name := claims']> (claims_for_name_cache st)) st).

Definition remove_claim_for_name (name claim_id : string) : M unit :=
  claims <- get_claims_for_name name ;;
  match claims !! claim_id with
  | None => raise KeyError
  | Some claim_n =>
      let claims := delete claim_id claims in
      let claims := fmap (fun number => if claim_n <? number then number - 1 else number)
                      claims in
      modify (fun st => set_names_cache (<[name := claims]> (claims_for_name_cache st)) st)
  end.

Definition get_signed_claim_ids_by_cert_id (cert_id : string) : M (list string) :=
  gets (fun st =>
    match claims_signed_by_cert_cache st !! cert_id with
    | Some claims => claims
    | None =>
        match signatures_db st !! cert_id with
        | Some db_claims => db_claims
        | None => []
        end
    end).

Definition put_claim_id_signed_by_cert_id (cert_id claim_id : string) : M unit :=
  certs <- get_signed_claim_ids_by_cert_id cert_id ;;
  modify (fun st =>
    set_cert_cache (<[cert_id := certs ++ [claim_id]]> (claims_signed_by_cert_cache st)) st).

Definition remove_certificate (cert_id : string) : M unit :=
  modify (fun st => set_cert_cache (<[cert_id := []]> (claims_signed_by_cert_cache st)) st).

(** [list.remove]: drop the first occurrence. *)
Fixpoint list_remove (x : string) (l : list string) : list string :=
  match l with
  | [] => []
  | y :: r => if String.eqb x y then r else y :: list_remove x r
  end.

Definition remove_claim_from_certificate_claims (cert_id claim_id : string) : M unit :=
  certs <- get_signed_claim_ids_by_cert_id cert_id ;;
  let certs := if existsb (String.eqb claim_id) certs then list_remove claim_id certs
               else certs in
  modify (fun st =>
    set_cert_cache (<[cert_id := certs]> (claims_signed_by_cert_cache st)) st).

(** [self.pending_abandons.setdefault(claim_id, []).append(outpoint)] *)
Fixpoint setdefault_append (claim_id : string) (o : string * Z)
    (p : list (string * list (string * Z))) : list (string * list (string * Z)) :=
  match p with
  | [] => [(claim_id, [o])]
  | (k, os) :: r =>
      if String.eqb k claim_id then (k, os ++ [o]) :: r
      else (k, os) :: setdefault_append claim_id o r
  end.

Definition abandon_spent (tx_hash : string) (tx_idx : Z) : M (option string) :=
  claim_id <- get_claim_id_from_outpoint tx_hash tx_idx ;;
  match claim_id with
  | Some cid =>
      if truthy claim_id then
        modify (fun st =>
          set_pending (setdefault_append cid (tx_hash, tx_idx) (pending_abandons st)) st) ;;
        ret (Some cid)
      else ret None
  | None => ret None
  end.

(** ** Metadata extraction *)

Definition _checksig (name value address : string) : M (option string) :=
  if negb (parse_lbry_uri_ok name) then ret None else
  match certificate_id_of value with
  | None => ret None
  | Some raw =>
      (* certificateId[::-1] or None *)
      let cert_id := let r := string_rev raw in
                     if String.eqb r EmptyString then None else Some r in
      validate <- gets should_validate_signatures ;;
      if negb validate then ret cert_id else
      match cert_id with
      | None => ret None
      | Some c =>
          cert_claim <- get_claim_info c ;;
          match cert_claim with
          | Some cc =>
              if signature_valid value address (ci_value cc) then ret (Some c) else ret None
          | None => ret None
          end
      end
  end.

Definition claim_info_from_output (output : TxOutput) (txid : string) (nout height : Z)
    : M ClaimInfo :=
  let amount := out_value output in
  let address := address_from_script (out_pk_script output) in
  match out_claim output with
  | NameClaim name value | ClaimUpdate name _ value =>
      if truthy (Some txid) && truthy (Some address) then
        cert_id <- _checksig name value address ;;
        ret (mkClaimInfo name value txid nout amount address height cert_id)
      else raise AssertionError
  | ClaimSupport _ _ | NoClaim => raise AttributeError
  end.

Definition get_update_input (claim_id : string) (inputs : list TxInput)
    : M (option TxInput) :=
  claim_info <- get_claim_info claim_id ;;
  match claim_info with
  | None => ret None
  | Some ci =>
      ret (find (fun i => String.eqb (prev_hash i) (ci_txid ci) && Z.eqb (prev_idx i) (ci_nout ci))
             inputs)
  end.

(** [if cert_id: f(cert_id)] *)
Definition when_cert (cert_id : option string) (f : string -> M unit) : M unit :=
  match cert_id with
  | Some c => if truthy cert_id then f c else ret tt
  | None => ret tt
  end.

(** ** Block advance *)

Definition advance_update_claim (output : TxOutput) (height : Z) (txid : string) (nout : Z)
    : M UndoEntry :=
  match out_claim output with
  | ClaimUpdate _ claim_id _ =>
      claim_info <- claim_info_from_output output txid nout height ;;
      old <- get_claim_info claim_id ;;
      match old with
      | None => raise AttributeError
      | Some old_claim_info =>
          put_claim_id_for_outpoint (ci_txid old_claim_info) (ci_nout old_claim_info) None ;;
          when_cert (ci_cert_id old_claim_info)
            (fun c => remove_claim_from_certificate_claims c claim_id) ;;
          when_cert (ci_cert_id claim_info)
            (fun c => put_claim_id_signed_by_cert_id c claim_id) ;;
          put_claim_info claim_id claim_info ;;
          put_claim_id_for_outpoint txid nout (Some claim_id) ;;
          ret (claim_id, Some old_claim_info)
      end
  | _ => raise AttributeError
  end.

Definition advance_claim_name_transaction (output : TxOutput) (height : Z) (txid : string)
    (nout : Z) : M UndoEntry :=
  match claim_id_hash txid nout with
  | None => raise StructError
  | Some claim_id =>
      claim_info <- claim_info_from_output output txid nout height ;;
      when_cert (ci_cert_id claim_info)
        (fun c => put_claim_id_signed_by_cert_id c claim_id) ;;
      put_claim_info claim_id claim_info ;;
      put_claim_for_name (ci_name claim_info) claim_id ;;
      put_claim_id_for_outpoint txid nout (Some claim_id) ;;
      ret (claim_id, None)
  end.

Definition advance_support (name claim_id txid : string) (nout height amount : Z) : M unit :=
  ret tt.

(** One output of [advance_claim_txs]: the undo record it adds and the
    input it adds to [update_inputs]. *)
Definition advance_output (tx : Tx) (txid : string) (height index : Z) (output : TxOutput)
    : M (option UndoEntry * option TxInput) :=
  match out_claim output with
  | NameClaim _ _ =>
      u <- advance_claim_name_transaction output height txid index ;;
      ret (Some u, None)
  | ClaimUpdate _ claim_id _ =>
      update_input <- get_update_input claim_id (tx_inputs tx) ;;
      match update_input with
      | Some i =>
          u <- advance_update_claim output height txid index ;;
          ret (Some u, Some i)
      | None =>
          modify (fun st => set_error_log (error_log st ++ [(txid, claim_id)]) st) ;;
          ret (None, None)
      end
  | ClaimSupport name claim_id =>
      advance_support name claim_id txid index height (out_value output) ;;
      ret (None, None)
  | NoClaim => ret (None, None)
  end.

Fixpoint advance_outputs (tx : Tx) (txid : string) (height index : Z)
    (outputs : list TxOutput) : M (list UndoEntry * list TxInput) :=
  match outputs with
  | [] => ret ([], [])
  | o :: rest =>
      r <- advance_output tx txid height index o ;;
      r' <- advance_outputs tx txid height (index + 1) rest ;;
      ret (option_list (fst r) ++ fst r', option_list (snd r) ++ snd r')
  end.

Fixpoint abandon_inputs (update_inputs : list TxInput) (inputs : list TxInput)
    : M (list UndoEntry) :=
  match inputs with
  | [] => ret []
  | txin :: rest =>
      u <- (if decide (txin ∈ update_inputs) then ret [] else
            abandoned <- abandon_spent (prev_hash txin) (prev_idx txin) ;;
            match abandoned with
            | Some claim_id => info <- get_claim_info claim_id ;; ret [(claim_id, info)]
            | None => ret []
            end) ;;
      us <- abandon_inputs update_inputs rest ;;
      ret (u ++ us)
  end.

Definition advance_claim_tx (tx : Tx) (txid : string) (height : Z) : M (list UndoEntry) :=
  r <- (if has_claims tx then advance_outputs tx txid height 0 (tx_outputs tx)
        else ret ([], [])) ;;
  abandons <- abandon_inputs (snd r) (tx_inputs tx) ;;
  ret (fst r ++ abandons).

Fixpoint advance_claim_txs (txs : list (Tx * string)) (height : Z) : M (list UndoEntry) :=
  match txs with
  | [] => ret []
  | (tx, txid) :: rest =>
      u <- advance_claim_tx tx txid height ;;
      us <- advance_claim_txs rest height ;;
      ret (u ++ us)
  end.

(** The claim part of [advance_blocks]: [height] is the base indexer's
    [self.height + 1] taken before the blocks are advanced. *)
Fixpoint advance_claim_blocks (blocks : list (list (Tx * string))) (height : Z)
    : M (list (Z * list UndoEntry)) :=
  match blocks with
  | [] => ret []
  | b :: rest =>
      undo <- advance_claim_txs b height ;;
      pending <- advance_claim_blocks rest (height + 1) ;;
      ret ((height, undo) :: pending)
  end.

Fixpoint write_undo (pending : list (Z * list UndoEntry)) : M unit :=
  match pending with
  | [] => ret tt
  | (h, undo_info) :: rest =>
      match pack_u32_be h with
      | None => raise StructError
      | Some key =>
          modify (fun st => set_undo_db (<[key := undo_info]> (claim_undo_db st)) st) ;;
          write_undo rest
      end
  end.

Definition advance_blocks (blocks : list (list (Tx * string))) (height : Z) : M unit :=
  pending_undo <- advance_claim_blocks blocks height ;;
  write_undo pending_undo.

(** ** Reorg rollback *)

Definition backup_from_undo_info (claim_id : string) (undo_claim_info : option ClaimInfo)
    : M unit :=
  current_claim_info <- get_claim_info claim_id ;;
  match current_claim_info, undo_claim_info with
  | Some current, Some _ =>
      (* update, remove current claim *)
      remove_claim_id_for_outpoint (ci_txid current) (ci_nout current) ;;
      when_cert (ci_cert_id current)
        (fun c => remove_claim_from_certificate_claims c claim_id)
  | Some current, None =>
      (* claim, abandon it *)
      abandon_spent (ci_txid current) (ci_nout current) ;; ret tt
  | None, Some _ =>
      (* abandon, reclaim it (happens below) *)
      ret tt
  | None, None => raise InconsistentDatabase
  end ;;
  match undo_claim_info with
  | None => ret tt
  | Some undo =>
      put_claim_info claim_id undo ;;
      when_cert (ci_cert_id undo) (fun _ =>
        cert_id <- _checksig (ci_name undo) (ci_value undo) (ci_address undo) ;;
        match cert_id with
        (* hash_to_str(None) in the log line raises *)
        | None => raise TypeError
        | Some c => put_claim_id_signed_by_cert_id c claim_id
        end) ;;
      put_claim_for_name (ci_name undo) claim_id ;;
      put_claim_id_for_outpoint (ci_txid undo) (ci_nout undo) (Some claim_id)
  end.

Fixpoint backup_undo_entries (entries : list UndoEntry) : M unit :=
  match entries with
  | [] => ret tt
  | (claim_id, undo_claim_info) :: rest =>
      backup_from_undo_info claim_id undo_claim_info ;;
      backup_undo_entries rest
  end.

(** The claim part of [backup_txs]; [height] is the base indexer's
    [self.height].  [msgpack.loads(None)] raises [TypeError]. *)
Definition backup_txs (height : Z) : M unit :=
  match pack_u32_be height with
  | None => raise StructError
  | Some key =>
      raw <- gets (fun st => claim_undo_db st !! key) ;;
      match raw with
      | None => raise TypeError
      | Some undo_info => backup_undo_entries (rev undo_info)
      end
  end.

(** ** Flush *)

Fixpoint clear_outpoints (outpoints : list (string * Z)) : M unit :=
  match outpoints with
  | [] => ret tt
  | (txid, tx_index) :: rest =>
      put_claim_id_for_outpoint txid tx_index None ;; clear_outpoints rest
  end.

Fixpoint drain_abandons (abandons : list (string * list (string * Z))) : M unit :=
  match abandons with
  | [] => ret tt
  | (claim_id, outpoints) :: rest =>
      claim <- get_claim_info claim_id ;;
      match claim with
      | None => raise AttributeError
      | Some claim =>
          remove_claim_for_name (ci_name claim) claim_id ;;
          when_cert (ci_cert_id claim)
            (fun c => remove_claim_from_certificate_claims c claim_id) ;;
          remove_certificate claim_id ;;
          modify (fun st => set_claim_cache (<[claim_id := None]> (claim_cache st)) st) ;;
          clear_outpoints outpoints ;;
          drain_abandons rest
      end
  end.

Definition write_claims (cache : gmap string (option ClaimInfo)) (db : gmap string ClaimInfo)
    : gmap string ClaimInfo :=
  map_fold (fun key claim db =>
    match claim with Some c => <[key := c]> db | None => delete key db end) db cache.

Definition write_names (cache : gmap string NamesDict) (db : gmap string NamesDict)
    : gmap string NamesDict :=
  map_fold (fun name (claims : NamesDict) db =>
    if decide (claims = ∅) then delete name db else <[name := claims]> db) db cache.

Definition write_certs (cache : gmap string (list string)) (db : gmap string (list string))
    : gmap string (list string) :=
  map_fold (fun cert_id (claims : list string) db =>
    match claims with [] => delete cert_id db | _ => <[cert_id := claims]> db end) db cache.

Definition write_outpoints (cache : gmap string (option string)) (db : gmap string string)
    : gmap string string :=
  map_fold (fun key claim_id db =>
    match claim_id with
    | Some c => if truthy claim_id then <[key := c]> db else delete key db
    | None => delete key db
    end) db cache.

Definition flush_claims : M unit :=
  abandons <- gets pending_abandons ;;
  drain_abandons abandons ;;
  modify (fun st =>
    set_dbs (write_claims (claim_cache st) (claims_db st))
            (write_names (claims_for_name_cache st) (names_db st))
            (write_certs (claims_signed_by_cert_cache st) (signatures_db st))
            (write_outpoints (outpoint_to_claim_id_cache st) (outpoint_to_claim_id_db st))
            st) ;;
  modify (fun st => set_pending [] (set_outpoint_cache ∅ (set_cert_cache ∅
                      (set_names_cache ∅ (set_claim_cache ∅ st))))).

(** [assert cond] *)
Definition py_assert (b : bool) : M unit := if b then ret tt else raise AssertionError.

(** The claim part of [assert_flushed]: [not d] is [len(d) == 0]; the base
    indexer's own checks are outside the repository. *)
Definition assert_flushed : M unit :=
  st <- get_state ;;
  py_assert (Nat.eqb (size (claim_cache st)) 0) ;;
  py_assert (Nat.eqb (size (claims_for_name_cache st)) 0) ;;
  py_assert (Nat.eqb (size (claims_signed_by_cert_cache st)) 0) ;;
  py_assert (Nat.eqb (size (outpoint_to_claim_id_cache st)) 0) ;;
  py_assert (match pending_abandons st with [] => true | _ :: _ => false end).

End Processor.

(** ** Concrete collaborators and states for the worked examples *)

#[local] Instance demo_hashing : Hashing := {|
  sha256 := fun s => String.append "sha256:" s;
  ripemd160 := fun s => String.append "ripemd160:" s
|}.

(** Address = script; a name is a valid URI when non-empty; the value
    "bad" does not parse; the value "signed" names the certificate whose
    id reads "cert" after reversal; all signatures validate except on
    the value "forged". *)
#[local] Instance demo_schema : Schema := {|
  address_from_script := fun s => s;
  parse_lbry_uri_ok := fun s => negb (String.eqb s EmptyString);
  certificate_id_of := fun v =>
    if String.eqb v "bad" then None
    else if String.eqb v "signed" then Some "trec"
    else if String.eqb v "forged" then Some "trec"
    else Some EmptyString;
  signature_valid := fun v _ _ => negb (String.eqb v "forged")
|}.

Definition empty_state : State := mkState ∅ ∅ ∅ ∅ [] ∅ ∅ ∅ ∅ ∅ false [].

(** The state reached by a computation, or the given default on error. *)
Definition final_state {A} (r : Result A) (default : State) : State :=
  match r with Ok _ st => st | Err _ => default end.

Definition be_byte (k : Z) : string :=
  String (byte_of k) EmptyString.

(** The outpoint key [txid || u32_be(nout)] of the examples. *)
Definition demo_key (txid : string) (nout : Z) : string :=
  String.append txid (String (byte_of 0) (String (byte_of 0) (String (byte_of 0)
    (String (byte_of nout) EmptyString)))).

Definition demo_claim : ClaimInfo :=
  mkClaimInfo "name" "value" "txa" 1 20 "addr" 10 None.

(** A store holding one claim "cid" under the name "name" at outpoint
    ("txa", 1), created at height 10, with its undo journal. *)
Definition stored_state : State :=
  mkState ∅ ∅ ∅ ∅ []
    {[ "cid" := demo_claim ]}
    {[ "name" := {[ "cid" := 1 ]} ]}
    ∅
    {[ demo_key "txa" 1 := "cid" ]}
    {[ demo_key EmptyString 10 := [("cid", None)] ]}
    false [].

(** A transaction updating "cid": it spends ("txa", 1). *)
Definition update_output : TxOutput := mkTxOutput 30 "addr" (ClaimUpdate "name" "cid" "value2").
Definition update_tx : Tx := mkTx [mkTxInput "txa" 1] [update_output].

(** Three claims under "name", with sequences 1, 2, 3. *)
Definition three_claims : NamesDict :=
  <[ "id1" := 1 ]> (<[ "id2" := 2 ]> (<[ "id3" := 3 ]> ∅)).
Definition three_claims_state : State :=
  set_names_cache {[ "name" := three_claims ]} empty_state.

(** Signature validation on; "cert" is a stored certificate claim. *)
Definition validating_state : State :=
  mkState ∅ ∅ ∅ ∅ [] {[ "cert" := demo_claim ]} ∅ ∅ ∅ ∅ true [].

(** Signature validation on; no certificate is stored. *)
Definition validating_empty_state : State :=
  mkState ∅ ∅ ∅ ∅ [] ∅ ∅ ∅ ∅ ∅ true [].

(** Signature validation on; the store of [stored_state], whose claim "cid"
    has no certificate stored. *)
Definition validating_stored_state : State :=
  mkState ∅ ∅ ∅ ∅ []
    {[ "cid" := demo_claim ]}
    {[ "name" := {[ "cid" := 1 ]} ]}
    ∅
    {[ demo_key "txa" 1 := "cid" ]}
    ∅
    true [].

(** The states after rolling back height 10 and after the update. *)
Definition rollback_result : State :=
  final_state (backup_txs 10 stored_state) stored_state.
Definition update_result : State :=
  final_state (advance_output update_tx "txb" 11 0 update_output stored_state) stored_state.

(** Big-endian value of a byte string. *)
Fixpoint be_value_acc (acc : Z) (s : string) : Z :=
  match s with
  | EmptyString => acc
  | String c r => be_value_acc (acc * 256 + Z.of_N (N_of_ascii c)) r
  end.
Definition be_value (s : string) : Z := be_value_acc 0 s.

(** ** Invariants of the indexes *)

(** The sequence numbers of a name's claims are [1 .. size] without
    repetition. *)
Definition compact_sequences (d : NamesDict) : Prop :=
  map_Forall (fun _ v => 1 <= v <= Z.of_nat (size d)) d /\
  map_Forall (fun c1 v => map_Forall (fun c2 w => v = w -> c1 = c2) d) d.

(** The state [flush_claims] ends in when no abandon is pending. *)
Definition flushed (st : State) : State :=
  set_pending [] (set_outpoint_cache ∅ (set_cert_cache ∅ (set_names_cache ∅ (set_claim_cache ∅
    (set_dbs (write_claims (claim_cache st) (claims_db st))
             (write_names (claims_for_name_cache st) (names_db st))
             (write_certs (claims_signed_by_cert_cache st) (signatures_db st))
             (write_outpoints (outpoint_to_claim_id_cache st) (outpoint_to_claim_id_db st))
             st))))).

(** [self.pending_abandons.get(claim_id)] *)
Fixpoint pending_get (claim_id : string) (p : list (string * list (string * Z)))
    : option (list (string * Z)) :=
  match p with
  | [] => None
  | (k, os) :: r => if String.eqb k claim_id then Some os else pending_get claim_id r
  end.

(** ** The RPC session ([session.py]) *)

(** A Python [str] as its list of code points. *)
Abbreviation PyStr := (list Z).

Definition pystr (s : string) : PyStr := map (fun a => Z.of_N (N_of_ascii a)) (list_ascii_of_string s).

(** A value decoded from the daemon's JSON reply or from the RPC request.
    JSON numbers are integers here (the heights, amounts and indexes the
    session reads are); objects keep their key order, as Python dicts do. *)
#[warnings="-register-all"] Inductive Json :=
  | JNull
  | JBool (b : bool)
  | JInt (z : Z)
  | JStr (s : PyStr)
  | JList (l : list Json)
  | JObj (kv : list (PyStr * Json)).

(** The exceptions the session code can raise. *)
Inductive SessionExn :=
  | SKeyError | SAttributeError | STypeError | SValueError | SBinasciiError
  | SUnicodeEncodeError | SUnicodeDecodeError
  | SRPCError (value : Json) (what : PyStr)
  | SProcessorError (e : Exn).

Abbreviation SResult A := (A + SessionExn)%type.

Definition sbind {A B} (m : SResult A) (k : A -> SResult B) : SResult B :=
  match m with inl a => k a | inr e => inr e end.

Declare Scope session_scope.
Notation "'let?' x ':=' m 'in' k" := (sbind m (fun x => k))
  (at level 200, x name, m at level 100, k at level 200) : session_scope.
Open Scope session_scope.

Fixpoint map_err {A B} (f : A -> SResult B) (l : list A) : SResult (list B) :=
  match l with
  | [] => inl []
  | x :: r => let? y := f x in let? ys := map_err f r in inl (y :: ys)
  end.

(** Python truthiness of a JSON value. *)
Definition json_truthy (j : Json) : bool :=
  match j with
  | JNull => false
  | JBool b => b
  | JInt z => negb (Z.eqb z 0)
  | JStr s => match s with [] => false | _ :: _ => true end
  | JList l => match l with [] => false | _ :: _ => true end
  | JObj kv => match kv with [] => false | _ :: _ => true end
  end.

(** The first entry under a key of a dict. *)
Fixpoint assoc_lookup (k : PyStr) (kv : list (PyStr * Json)) : option Json :=
  match kv with
  | [] => None
  | (k', v) :: r => if bool_decide (k' = k) then Some v else assoc_lookup k r
  end.

(** [d[k] = v]: overwrite in place, or add at the end. *)
Definition assoc_set (k : PyStr) (v : Json) (kv : list (PyStr * Json)) : list (PyStr * Json) :=
  if existsb (fun e => bool_decide (fst e = k)) kv
  then map (fun e => if bool_decide (fst e = k) then (k, v) else e) kv
  else kv ++ [(k, v)].

(** [del d[k]] once the key is known present. *)
Definition assoc_del (k : PyStr) (kv : list (PyStr * Json)) : list (PyStr * Json) :=
  List.filter (fun e => negb (bool_decide (fst e = k))) kv.

(** [j[k]] with a string key. *)
Definition getitem (j : Json) (k : PyStr) : SResult Json :=
  match j with
  | JObj kv => match assoc_lookup k kv with Some v => inl v | None => inr SKeyError end
  | _ => inr STypeError
  end.

(** [j.get(k)]; [None] is [JNull]. *)
Definition json_get (j : Json) (k : PyStr) : SResult Json :=
  match j with
  | JObj kv => inl (match assoc_lookup k kv with Some v => v | None => JNull end)
  | _ => inr SAttributeError
  end.

(** [j.get(k) or j[k2]] *)
Definition get_or (j : Json) (k k2 : PyStr) : SResult Json :=
  let? v := json_get j k in if json_truthy v then inl v else getitem j k2.

Definition setitem (j : Json) (k : PyStr) (v : Json) : SResult Json :=
  match j with JObj kv => inl (JObj (assoc_set k v kv)) | _ => inr STypeError end.

Definition delitem (j : Json) (k : PyStr) : SResult Json :=
  match j with
  | JObj kv => match assoc_lookup k kv with
               | Some _ => inl (JObj (assoc_del k kv))
               | None => inr SKeyError
               end
  | _ => inr STypeError
  end.

(** [for x in j] *)
Definition json_iter (j : Json) : SResult (list Json) :=
  match j with
  | JList l => inl l
  | JObj kv => inl (map (fun e => JStr (fst e)) kv)
  | JStr s => inl (map (fun c => JStr [c]) s)
  | _ => inr STypeError
  end.

Fixpoint prefixb (p s : PyStr) : bool :=
  match p, s with
  | [], _ => true
  | c :: p', d :: s' => Z.eqb c d && prefixb p' s'
  | _ :: _, [] => false
  end.

Fixpoint substrb (p s : PyStr) : bool :=
  prefixb p s || match s with [] => false | _ :: s' => substrb p s' end.

(** [k in j] with a string [k]. *)
Definition json_contains (j : Json) (k : PyStr) : SResult bool :=
  match j with
  | JObj kv => inl (existsb (fun e => bool_decide (fst e = k)) kv)
  | JList l => inl (existsb (fun x => match x with JStr s => bool_decide (s = k) | _ => false end) l)
  | JStr s => inl (substrb k s)
  | _ => inr STypeError
  end.

(** [a - j] for a Python int [a]; [bool] is an int subclass. *)
Definition py_sub (a : Z) (j : Json) : SResult Json :=
  match j with
  | JInt z => inl (JInt (a - z))
  | JBool b => inl (JInt (a - Z.b2z b))
  | _ => inr STypeError
  end.

(** The digit value of a hexadecimal character. *)
Definition hex_value (c : Z) : option Z :=
  if (48 <=? c) && (c <=? 57) then Some (c - 48)
  else if (65 <=? c) && (c <=? 70) then Some (c - 55)
  else if (97 <=? c) && (c <=? 102) then Some (c - 87)
  else None.

(** ASCII whitespace, which [bytes.fromhex] skips between byte pairs
    (Python 3.7 and later). *)
Definition py_isspace (c : Z) : bool :=
  Z.eqb c 32 || ((9 <=? c) && (c <=? 13)).

(** [bytes.fromhex(s)] ([util.hex_to_bytes]); [None] when it raises. *)
Fixpoint fromhex (s : PyStr) : option string :=
  match s with
  | [] => Some EmptyString
  | c :: r =>
      if py_isspace c then fromhex r else
      match r with
      | [] => None
      | c2 :: r2 =>
          match hex_value c, hex_value c2 with
          | Some hi, Some lo => option_map (String (byte_of (hi * 16 + lo))) (fromhex r2)
          | _, _ => None
          end
      end
  end.

(** The hexadecimal digits of [binascii.a2b_hex]; [None] on an odd
    length or a non-hexadecimal character. *)
Fixpoint a2b_hex_digits (s : PyStr) : option string :=
  match s with
  | [] => Some EmptyString
  | c1 :: c2 :: r =>
      match hex_value c1, hex_value c2 with
      | Some hi, Some lo => option_map (String (byte_of (hi * 16 + lo))) (a2b_hex_digits r)
      | _, _ => None
      end
  | [_] => None
  end.

(** [binascii.unhexlify(j)] on a value from JSON. *)
Definition unhexlify (j : Json) : SResult string :=
  match j with
  | JStr s =>
      if forallb (fun c => c <? 128) s then
        match a2b_hex_digits s with Some b => inl b | None => inr SBinasciiError end
      else inr SValueError
  | _ => inr STypeError
  end.

Definition hex_digit (d : Z) : Z := if d <? 10 then 48 + d else 87 + d.

(** [hexlify(b).decode()] *)
Definition hexlify (b : string) : PyStr :=
  flat_map (fun a => let n := Z.of_N (N_of_ascii a) in [hex_digit (n / 16); hex_digit (n mod 16)])
    (list_ascii_of_string b).

(** [j.encode('ISO-8859-1')] *)
Definition latin1_encode (j : Json) : SResult string :=
  match j with
  | JStr s =>
      if forallb (fun c => c <? 256) s then inl (string_of_list_ascii (map byte_of s))
      else inr SUnicodeEncodeError
  | _ => inr SAttributeError
  end.

(** [bytes.decode()]: UTF-8 decoding, outside the repository. *)
Class Codec := {
  utf8_decode : string -> option PyStr
}.

Definition assert_hash_length (n : nat) (what : PyStr) (value : Json) : SResult unit :=
  match value with
  | JStr s =>
      match fromhex s with
      | Some b => if Nat.eqb (String.length b) n then inl tt else inr (SRPCError value what)
      | None => inr (SRPCError value what)
      end
  | _ => inr (SRPCError value what)
  end.

Definition assert_tx_hash (value : Json) : SResult unit :=
  assert_hash_length 32 (pystr " should be a transaction hash") value.

Definition assert_claim_id (value : Json) : SResult unit :=
  assert_hash_length 20 (pystr " should be a claim id hash") value.

Section Session.
Context `{Hashing} `{Schema} `{Codec}.

(** A read of the block processor's caches from the session. *)
Definition bp_read {A} (m : M A) (st : State) : SResult A :=
  match m st with Ok a _ => inl a | Err e => inr (SProcessorError e) end.

(** [transaction_get_height]: [transaction_info] is the daemon's reply to
    [getrawtransaction(tx_hash, True)], [db_height] is [self.bp.db_height]. *)
Definition transaction_get_height (db_height : Z) (tx_hash transaction_info : Json)
    : SResult Json :=
  let? _ := assert_tx_hash tx_hash in
  if json_truthy transaction_info then
    let? has_hex := json_contains transaction_info (pystr "hex") in
    if has_hex then
      let? has_conf := json_contains transaction_info (pystr "confirmations") in
      if has_conf then
        let? confirmations := getitem transaction_info (pystr "confirmations") in
        py_sub db_height confirmations
      else inl (JInt (-1))
    else inl JNull
  else inl JNull.

Definition format_claim_from_daemon (st : State) (db_height : Z) (claim name : Json)
    : SResult Json :=
  let? name := if json_truthy name then inl name else getitem claim (pystr "name") in
  let? claim_id := getitem claim (pystr "claimId") in
  let? unhexed := unhexlify claim_id in
  let raw_claim_id := string_rev unhexed in
  let? info := bp_read (get_claim_info raw_claim_id) st in
  let? address :=
    match info with
    | None => inr SAttributeError
    | Some ci => match utf8_decode (ci_address ci) with
                 | Some a => inl a
                 | None => inr SUnicodeDecodeError
                 end
    end in
  let? name_bytes := latin1_encode name in
  let? claims := bp_read (get_claims_for_name name_bytes) st in
  let? sequence := match claims !! raw_claim_id with Some v => inl v | None => inr SKeyError end in
  let? claim_supports := getitem claim (pystr "supports") in
  let? support_list := json_iter claim_supports in
  let? supports := map_err (fun support =>
      let? txid := getitem support (pystr "txid") in
      let? n := getitem support (pystr "n") in
      let? amount := get_or support (pystr "amount") (pystr "nAmount") in
      inl (JList [txid; n; amount])) support_list in
  let? claim_id' := getitem claim (pystr "claimId") in
  let? txid := getitem claim (pystr "txid") in
  let? nout := getitem claim (pystr "n") in
  let? amount := get_or claim (pystr "amount") (pystr "nAmount") in
  let? h := get_or claim (pystr "height") (pystr "nHeight") in
  let? depth := py_sub db_height h in
  let? height := get_or claim (pystr "height") (pystr "nHeight") in
  let? value := getitem claim (pystr "value") in
  let? value_bytes := latin1_encode value in
  let? effective_amount := get_or claim (pystr "effective amount") (pystr "nEffectiveAmount") in
  let? valid_at_height := get_or claim (pystr "valid at height") (pystr "nValidAtHeight") in
  inl (JObj [(pystr "name", name); (pystr "claim_id", claim_id'); (pystr "txid", txid);
             (pystr "nout", nout); (pystr "amount", amount); (pystr "depth", depth);
             (pystr "height", height); (pystr "value", JStr (hexlify value_bytes));
             (pystr "claim_sequence", JInt sequence); (pystr "address", JStr address);
             (pystr "supports", JList supports);
             (pystr "effective_amount", effective_amount);
             (pystr "valid_at_height", valid_at_height)]).

(** [claimtrie_getclaimsforname]: [claims] is the daemon's reply to
    [getclaimsforname(name)]. *)
Definition claimtrie_getclaimsforname (st : State) (db_height : Z) (name claims : Json)
    : SResult Json :=
  if json_truthy claims then
    let? daemon_claims := getitem claims (pystr "claims") in
    let? claim_list := json_iter daemon_claims in
    let? formatted := map_err (fun claim => format_claim_from_daemon st db_height claim name)
                        claim_list in
    let? claims := setitem claims (pystr "claims") (JList formatted) in
    let? swc := getitem claims (pystr "supports without claims") in
    let? claims := setitem claims (pystr "supports_without_claims") swc in
    let? claims := delitem claims (pystr "supports without claims") in
    let? takeover := getitem claims (pystr "nLastTakeoverHeight") in
    let? claims := setitem claims (pystr "last_takeover_height") takeover in
    delitem claims (pystr "nLastTakeoverHeight")
  else inl (JObj []).

(** [claimtrie_getclaimbyid]: [claim] is the daemon's reply to
    [getclaimbyid(claim_id)]. *)
Definition claimtrie_getclaimbyid (st : State) (db_height : Z) (claim_id claim : Json)
    : SResult Json :=
  let? _ := assert_claim_id claim_id in
  format_claim_from_daemon st db_height claim JNull.

End Session.

(** ASCII addresses decode to their own code points. *)
#[local] Instance demo_codec : Codec := {|
  utf8_decode := fun s => if forallb (fun a => N.ltb (N_of_ascii a) 128) (list_ascii_of_string s)
                          then Some (pystr s) else None
|}.

(** A daemon claim for "cid" under "name", as [getclaimsforname] lists it. *)
Definition daemon_claim : Json :=
  JObj [(pystr "name", JStr (pystr "name")); (pystr "claimId", JStr (hexlify (string_rev "cid")));
        (pystr "txid", JStr (pystr "txa")); (pystr "n", JInt 1); (pystr "amount", JInt 0);
        (pystr "nAmount", JInt 20); (pystr "height", JInt 10); (pystr "value", JStr (pystr "value"));
        (pystr "supports", JList []); (pystr "effective amount", JInt 20);
        (pystr "valid at height", JInt 10)].

Definition daemon_claims_reply : Json :=
  JObj [(pystr "claims", JList [daemon_claim]); (pystr "supports without claims", JList []);
        (pystr "nLastTakeoverHeight", JInt 10)].

(** ** Frame reasoning: computations that preserve a relation *)

(** [m] relates its start and end states by [R] whenever it succeeds. *)
Definition keeps (R : State -> State -> Prop) {A} (m : M A) : Prop :=
  forall st a st', m st = Ok a st' -> R st st'.

(** Every successful result of [m] satisfies [P]. *)
Definition yields {A} (P : A -> Prop) (m : M A) : Prop :=
  forall st a st', m st = Ok a st' -> P a.

(** The undo journal is untouched. *)
Definition undo_kept (st st' : State) : Prop := claim_undo_db st' = claim_undo_db st.

(** The name index (cache and store) and the pending abandons are untouched. *)
Definition names_kept (st st' : State) : Prop :=
  claims_for_name_cache st' = claims_for_name_cache st /\
  names_db st' = names_db st /\
  pending_abandons st' = pending_abandons st.

Section Frame.
Variable R : State -> State -> Prop.
Hypothesis R_refl : forall st, R st st.
Hypothesis R_trans : forall a b c, R a b -> R b c -> R a c.

Lemma keeps_ret {A} (a : A) : keeps R (ret a).
Proof. intros st x st' E. inversion E; subst. apply R_refl. Qed.

Lemma keeps_raise {A} (e : Exn) : keeps R (A:=A) (raise e).
Proof. intros st x st' E. discriminate E. Qed.

Lemma keeps_gets {A} (f : State -> A) : keeps R (gets f).
Proof. intros st x st' E. inversion E; subst. apply R_refl. Qed.

Lemma keeps_modify (f : State -> State) : (forall st, R st (f st)) -> keeps R (modify f).
Proof. intros Hf st x st' E. inversion E; subst. apply Hf. Qed.

Lemma keeps_bind {A B} (m : M A) (k : A -> M B) :
  keeps R m -> (forall a, keeps R (k a)) -> keeps R (bind m k).
Proof.
  intros Hm Hk st b st'' E. unfold bind in E.
  destruct (m st) as [a st'|e] eqn:Em; [|discriminate E].
  apply R_trans with st'; [exact (Hm _ _ _ Em) | exact (Hk a _ _ _ E)].
Qed.

End Frame.

Create HintDb frame.

Ltac frame_rel := unfold undo_kept, names_kept in *; simpl; repeat split.

Ltac keeps_step :=
  match goal with
  | |- keeps _ (bind _ _) => apply keeps_bind; [solve [eauto with frame] | | ]
  | |- keeps _ (ret _) => apply keeps_ret; solve [eauto with frame]
  | |- keeps _ (raise _) => apply keeps_raise
  | |- keeps _ (gets _) => apply keeps_gets; solve [eauto with frame]
  | |- keeps _ (modify _) => apply keeps_modify; intro; solve [frame_rel]
  | |- keeps _ (match ?x with _ => _ end) => destruct x
  | |- keeps _ (if ?b then _ else _) => destruct b
  | |- forall _, _ => intro
  end.

Ltac keeps_solve := repeat (solve [eauto with frame] || keeps_step).

Lemma undo_kept_refl st : undo_kept st st.
Proof. reflexivity. Qed.
Lemma undo_kept_trans a b c : undo_kept a b -> undo_kept b c -> undo_kept a c.
Proof. unfold undo_kept. congruence. Qed.
Lemma names_kept_refl st : names_kept st st.
Proof. frame_rel. Qed.
Lemma names_kept_trans a b c : names_kept a b -> names_kept b c -> names_kept a c.
Proof. unfold names_kept. intuition congruence. Qed.
#[local] Hint Resolve undo_kept_refl undo_kept_trans names_kept_refl names_kept_trans : frame.

Section FrameLemmas.
Context `{Hashing} `{Schema}.

Lemma outpoint_key_keeps R (Hr : forall st, R st st) t i : keeps R (outpoint_key t i).
Proof. unfold outpoint_key. destruct (pack_u32_be i); [apply keeps_ret | apply keeps_raise]; auto. Qed.
Lemma get_claim_info_keeps R (Hr : forall st, R st st) c : keeps R (get_claim_info c).
Proof. apply keeps_gets; auto. Qed.
Lemma get_claim_id_from_outpoint_keeps R (Hr : forall st, R st st)
    (Ht : forall a b c, R a b -> R b c -> R a c) t i : keeps R (get_claim_id_from_outpoint t i).
Proof.
  unfold get_claim_id_from_outpoint. apply keeps_bind; auto.
  - apply outpoint_key_keeps; auto.
  - intro. apply keeps_gets; auto.
Qed.
Lemma get_signed_keeps R (Hr : forall st, R st st) c : keeps R (get_signed_claim_ids_by_cert_id c).
Proof. apply keeps_gets; auto. Qed.
Lemma get_claims_for_name_keeps R (Hr : forall st, R st st) n : keeps R (get_claims_for_name n).
Proof. apply keeps_gets; auto. Qed.
Lemma checksig_keeps R (Hr : forall st, R st st)
    (Ht : forall a b c, R a b -> R b c -> R a c) n v a : keeps R (_checksig n v a).
Proof.
  unfold _checksig. destruct (negb (parse_lbry_uri_ok n)); [apply keeps_ret; auto|].
  destruct (certificate_id_of v); [|apply keeps_ret; auto].
  apply keeps_bind; auto; [apply keeps_gets; auto|]. intro b.
  destruct (negb b); [apply keeps_ret; auto|].
  destruct (if String.eqb (string_rev s) EmptyString then None else Some (string_rev s));
    [|apply keeps_ret; auto].
  apply keeps_bind; auto; [apply keeps_gets; auto|]. intros [cc|]; [|apply keeps_ret; auto].
  destruct (signature_valid v a (ci_value cc)); apply keeps_ret; auto.
Qed.
Lemma claim_info_from_output_keeps R (Hr : forall st, R st st)
    (Ht : forall a b c, R a b -> R b c -> R a c) o t n h : keeps R (claim_info_from_output o t n h).
Proof.
  unfold claim_info_from_output. destruct (out_claim o); try apply keeps_raise;
  (destruct (_ && _); [|apply keeps_raise]);
  (apply keeps_bind; auto; [apply checksig_keeps; auto | intro; apply keeps_ret; auto]).
Qed.
Lemma get_update_input_keeps R (Hr : forall st, R st st)
    (Ht : forall a b c, R a b -> R b c -> R a c) c ins : keeps R (get_update_input c ins).
Proof.
  unfold get_update_input. apply keeps_bind; auto; [apply keeps_gets; auto|].
  intros [ci|]; apply keeps_ret; auto.
Qed.

End FrameLemmas.

#[local] Hint Resolve keeps_ret keeps_raise keeps_gets : frame.
#[local] Hint Resolve outpoint_key_keeps get_claim_info_keeps get_claim_id_from_outpoint_keeps
  get_signed_keeps get_claims_for_name_keeps checksig_keeps claim_info_from_output_keeps
  get_update_input_keeps : frame.

Section UndoFrame.
Context `{Hashing} `{Schema}.

Lemma when_cert_keeps R c f : (forall s, keeps R (f s)) -> (forall st, R st st) ->
  keeps R (when_cert c f).
Proof.
  intros Hf Hr. unfold when_cert. destruct c; [destruct (truthy _)|]; auto; apply keeps_ret; auto.
Qed.

Lemma put_claim_info_undo c ci : keeps undo_kept (put_claim_info c ci).
Proof. unfold put_claim_info. keeps_solve. Qed.
Lemma put_claim_id_for_outpoint_undo t i c : keeps undo_kept (put_claim_id_for_outpoint t i c).
Proof. unfold put_claim_id_for_outpoint. keeps_solve. Qed.
Lemma remove_claim_id_for_outpoint_undo t i : keeps undo_kept (remove_claim_id_for_outpoint t i).
Proof. unfold remove_claim_id_for_outpoint. keeps_solve. Qed.
Lemma put_claim_for_name_undo n c : keeps undo_kept (put_claim_for_name n c).
Proof. unfold put_claim_for_name. keeps_solve. Qed.
Lemma put_signed_undo ce c : keeps undo_kept (put_claim_id_signed_by_cert_id ce c).
Proof. unfold put_claim_id_signed_by_cert_id. keeps_solve. Qed.
Lemma remove_from_cert_undo ce c : keeps undo_kept (remove_claim_from_certificate_claims ce c).
Proof. unfold remove_claim_from_certificate_claims. keeps_solve. Qed.
Lemma abandon_spent_undo t i : keeps undo_kept (abandon_spent t i).
Proof. unfold abandon_spent. keeps_solve. Qed.

#[local] Hint Resolve put_claim_info_undo put_claim_id_for_outpoint_undo
  remove_claim_id_for_outpoint_undo put_claim_for_name_undo put_signed_undo
  remove_from_cert_undo abandon_spent_undo : frame.

Lemma backup_from_undo_info_undo c u : keeps undo_kept (backup_from_undo_info c u).
Proof.
  unfold backup_from_undo_info. apply keeps_bind; eauto with frame. intro cur.
  apply keeps_bind; eauto with frame.
  - destruct cur, u; keeps_solve; apply when_cert_keeps; eauto with frame.
  - intros _. destruct u as [undo|]; [|apply keeps_ret; eauto with frame].
    keeps_solve. apply when_cert_keeps; [|eauto with frame]. intros s. keeps_solve.
Qed.

Lemma backup_undo_entries_undo l : keeps undo_kept (backup_undo_entries l).
Proof.
  induction l as [|[c u] l IH]; simpl.
  - apply keeps_ret; eauto with frame.
  - apply keeps_bind; eauto with frame. apply backup_from_undo_info_undo.
Qed.

Lemma backup_txs_undo h : keeps undo_kept (backup_txs h).
Proof.
  unfold backup_txs. destruct (pack_u32_be h); [|apply keeps_raise].
  apply keeps_bind; eauto with frame. intros [l|]; [apply backup_undo_entries_undo|apply keeps_raise].
Qed.

End UndoFrame.

Section NamesFrame.
Context `{Hashing} `{Schema}.

Lemma put_claim_info_names c ci : keeps names_kept (put_claim_info c ci).
Proof. unfold put_claim_info. keeps_solve. Qed.
Lemma put_claim_id_for_outpoint_names t i c : keeps names_kept (put_claim_id_for_outpoint t i c).
Proof. unfold put_claim_id_for_outpoint. keeps_solve. Qed.
Lemma put_signed_names ce c : keeps names_kept (put_claim_id_signed_by_cert_id ce c).
Proof. unfold put_claim_id_signed_by_cert_id. keeps_solve. Qed.
Lemma remove_from_cert_names ce c : keeps names_kept (remove_claim_from_certificate_claims ce c).
Proof. unfold remove_claim_from_certificate_claims. keeps_solve. Qed.

#[local] Hint Resolve put_claim_info_names put_claim_id_for_outpoint_names put_signed_names
  remove_from_cert_names : frame.

Lemma advance_update_claim_names o h t n : keeps names_kept (advance_update_claim o h t n).
Proof.
  unfold advance_update_claim. destruct (out_claim o) as [| | nm cid v |]; try apply keeps_raise.
  keeps_solve; apply when_cert_keeps; eauto with frame.
Qed.

Lemma get_update_input_pure c ins st :
  exists r, get_update_input c ins st = Ok r st.
Proof.
  unfold get_update_input, bind, get_claim_info, gets.
  destruct (match mjoin (claim_cache st !! c) with Some ci => Some ci | None => claims_db st !! c end);
    eexists; reflexivity.
Qed.

Lemma get_claims_for_name_value n st :
  get_claims_for_name n st =
  Ok (match claims_for_name_cache st !! n with
      | Some claims => claims
      | None => match names_db st !! n with Some d => d | None => ∅ end
      end) st.
Proof. reflexivity. Qed.

End NamesFrame.

(** ** Helper lemmas *)

Lemma pack_u32_be_in_range (n : Z) :
  0 <= n < 2 ^ 32 -> exists p, pack_u32_be n = Some p.
Proof.
  intros Hn. unfold pack_u32_be.
  replace ((0 <=? n) && (n <? 2 ^ 32)) with true by (symmetry; apply andb_true_iff; lia).
  eexists; reflexivity.
Qed.

Lemma find_none_forall {A} (f : A -> bool) (l : list A) :
  Forall (fun x => f x = false) l -> find f l = None.
Proof. induction 1 as [|x l Hx _ IH]; simpl; [reflexivity|]. rewrite Hx. exact IH. Qed.

Lemma rev_app_single {A} (l : list A) (x : A) : rev (l ++ [x]) = x :: rev l.
Proof. rewrite rev_app_distr. reflexivity. Qed.

Lemma get_claim_info_value (c : string) (st : State) :
  get_claim_info c st =
  Ok (match mjoin (claim_cache st !! c) with Some ci => Some ci | None => claims_db st !! c end) st.
Proof. reflexivity. Qed.

(** ** Claims *)

(** C1 (cache reads; code_bug).  A staged deletion of an outpoint is not
    returned by [get_claim_id_from_outpoint]: [cache.get(key) or db.get(key)]
    falls through to the stale stored claim id, which the flush then deletes.
    [get_claim_info] does the same with a staged [None] of the claim cache.
    The name and certificate reads, which test [key in cache], return the
    staged value. *)
Theorem staged_deletion_read_falls_through :
  (remove_claim_id_for_outpoint "txa" 1 ;; get_claim_id_from_outpoint "txa" 1) stored_state
    = Ok (Some "cid") (set_outpoint_cache {[ demo_key "txa" 1 := None ]} stored_state) /\
  (remove_claim_id_for_outpoint "txa" 1 ;; flush_claims ;; get_claim_id_from_outpoint "txa" 1)
    stored_state
    = Ok None (set_dbs {[ "cid" := demo_claim ]} {[ "name" := {[ "cid" := 1 ]} ]} ∅ ∅
                 stored_state) /\
  get_claim_info "cid" (set_claim_cache {[ "cid" := None ]} stored_state)
    = Ok (Some demo_claim) (set_claim_cache {[ "cid" := None ]} stored_state) /\
  (forall n d st, claims_for_name_cache st !! n = Some d -> get_claims_for_name n st = Ok d st) /\
  (forall c l st, claims_signed_by_cert_cache st !! c = Some l ->
     get_signed_claim_ids_by_cert_id c st = Ok l st).
Proof.
  split; [vm_compute; reflexivity|].
  split; [vm_compute; reflexivity|].
  split; [vm_compute; reflexivity|].
  split; intros ? ? st E; unfold get_claims_for_name, get_signed_claim_ids_by_cert_id, gets;
    rewrite E; reflexivity.
Qed.

Section ClaimTheorems.
Context `{Hashing} `{Schema}.

(** C2 (supports; code_bug).  [advance_support] is [pass]: a transaction
    whose only output is a ClaimSupport leaves every cache and store as it
    was and emits no undo record; nothing indexes the support. *)
Theorem support_output_is_not_indexed (st : State) (height amount : Z)
    (txid pk name claim_id : string) :
  advance_claim_txs [(mkTx [] [mkTxOutput amount pk (ClaimSupport name claim_id)], txid)] height st
    = Ok [] st.
Proof. reflexivity. Qed.

(** C3 (name sequence renumbering).  Removing claim [c] with sequence [k]
    from the claims of name [n] drops [c] and decrements exactly the
    sequences greater than [k]; adding id1, id2, id3 under "name" and
    removing id2 leaves [{id1: 1, id3: 2}]. *)
Theorem remove_claim_for_name_renumbers (st : State) (n c : string) (k : Z) (d : NamesDict) :
  get_claims_for_name n st = Ok d st -> d !! c = Some k ->
  (exists st' d',
    remove_claim_for_name n c st = Ok tt st' /\
    get_claims_for_name n st' = Ok d' st' /\
    d' !! c = None /\
    (forall c', c' <> c ->
       d' !! c' = (fun v => if k <? v then v - 1 else v) <$> d !! c')) /\
  (put_claim_for_name "name" "id1" ;; put_claim_for_name "name" "id2" ;;
   put_claim_for_name "name" "id3" ;; remove_claim_for_name "name" "id2" ;;
   get_claims_for_name "name") empty_state
    = Ok (<[ "id1" := 1 ]> (<[ "id3" := 2 ]> ∅))
         (set_names_cache {[ "name" := <[ "id1" := 1 ]> (<[ "id3" := 2 ]> ∅) ]} empty_state).
Proof.
  intros Hget Hc. split; [|vm_compute; reflexivity].
  set (d' := (fun number => if k <? number then number - 1 else number) <$> delete c d).
  exists (set_names_cache (<[n := d']> (claims_for_name_cache st)) st), d'.
  split; [|split; [|split]].
  - unfold remove_claim_for_name, bind. rewrite Hget, Hc. reflexivity.
  - unfold get_claims_for_name, gets. simpl. rewrite lookup_insert_eq. reflexivity.
  - unfold d'. rewrite lookup_fmap, lookup_delete_eq. reflexivity.
  - intros c' Hne. unfold d'. rewrite lookup_fmap, lookup_delete_ne by congruence. reflexivity.
Qed.

(** C4 (rejected update).  A ClaimUpdate output whose claim is unknown, or
    whose claim's current outpoint no input of the transaction spends, only
    logs [REJECTED]: no cache or store changes, no undo record, and its
    input is not reserved from the abandon pass. *)
Theorem update_without_prior_is_rejected (tx : Tx) (txid : string) (height index : Z)
    (output : TxOutput) (name cid value : string) (st : State) :
  out_claim output = ClaimUpdate name cid value ->
  (get_claim_info cid st = Ok None st \/
   exists ci, get_claim_info cid st = Ok (Some ci) st /\
     Forall (fun i => ~ (prev_hash i = ci_txid ci /\ prev_idx i = ci_nout ci)) (tx_inputs tx)) ->
  advance_output tx txid height index output st
    = Ok (None, None) (set_error_log (error_log st ++ [(txid, cid)]) st).
Proof.
  intros Hc Hprior. unfold advance_output. rewrite Hc.
  unfold bind at 1, get_update_input, bind at 1.
  destruct Hprior as [E | [ci [E Hins]]]; rewrite E.
  - reflexivity.
  - rewrite find_none_forall; [reflexivity|].
    eapply Forall_impl; [exact Hins|]. intros i Hi. simpl in Hi.
    destruct (String.eqb (prev_hash i) (ci_txid ci)) eqn:E1; [|reflexivity].
    destruct (Z.eqb (prev_idx i) (ci_nout ci)) eqn:E2; [|reflexivity].
    apply String.eqb_eq in E1. apply Z.eqb_eq in E2. tauto.
Qed.

(** C7 (rollback of a corrupted record).  An undo record [(claim_id, None)]
    for a claim with no current ClaimInfo raises the inconsistency error,
    also as the first record [backup_txs] replays from the journal. *)
Theorem backup_no_no_is_fatal (cid : string) (st : State) (h : Z) :
  get_claim_info cid st = Ok None st ->
  backup_from_undo_info cid None st = Err InconsistentDatabase /\
  (forall key entries, pack_u32_be h = Some key ->
     claim_undo_db st !! key = Some (entries ++ [(cid, None)]) ->
     backup_txs h st = Err InconsistentDatabase).
Proof.
  intros E. assert (Hb : backup_from_undo_info cid None st = Err InconsistentDatabase).
  { unfold backup_from_undo_info, bind at 1. rewrite E. reflexivity. }
  split; [exact Hb|].
  intros key entries Hk Hu. unfold backup_txs. rewrite Hk.
  unfold bind at 1, gets. rewrite Hu, rev_app_single. simpl.
  unfold bind at 1. rewrite Hb. reflexivity.
Qed.

(** C9 (update frame).  An accepted ClaimUpdate output leaves the name index
    (cache and store) and the pending abandons as they were: every name's
    claims, and so the claim's sequence number, read the same afterwards. *)
Theorem accepted_update_keeps_name_index (tx : Tx) (txid : string) (height index : Z)
    (output : TxOutput) (name cid value : string) (st st' : State) (u : UndoEntry)
    (i : TxInput) :
  out_claim output = ClaimUpdate name cid value ->
  advance_output tx txid height index output st = Ok (Some u, Some i) st' ->
  claims_for_name_cache st' = claims_for_name_cache st /\
  names_db st' = names_db st /\
  pending_abandons st' = pending_abandons st /\
  (forall n d, get_claims_for_name n st = Ok d st -> get_claims_for_name n st' = Ok d st').
Proof.
  intros Hc E. unfold advance_output in E. rewrite Hc in E.
  unfold bind at 1 in E. destruct (get_update_input_pure cid (tx_inputs tx) st) as [r Er].
  rewrite Er in E. destruct r as [i'|]; [|discriminate E].
  assert (Hk : names_kept st st').
  { eapply keeps_bind in E; eauto with frame.
    - apply advance_update_claim_names. }
  destruct Hk as (H1 & H2 & H3). split; [|split; [|split]]; auto.
  intros n d. rewrite !get_claims_for_name_value, H1, H2. congruence.
Qed.

End ClaimTheorems.

Section MoreClaimTheorems.
Context `{Hashing} `{Schema}.

(** A name claim whose payload yields no certificate is still indexed:
    its ClaimInfo, with [cert_id = None], is staged under its claim id. *)
Lemma name_claim_indexed_without_cert (name value : string) (st : State) (amount : Z)
    (pk txid : string) (nout height : Z) :
  _checksig name value (address_from_script pk) st = Ok None st ->
  txid <> EmptyString -> address_from_script pk <> EmptyString -> 0 <= nout < 2 ^ 32 ->
  exists cid st',
    advance_claim_name_transaction (mkTxOutput amount pk (NameClaim name value)) height txid nout st
      = Ok (cid, None) st' /\
    claim_cache st' !! cid =
      Some (Some (mkClaimInfo name value txid nout amount (address_from_script pk) height None)).
Proof.
  intros Hsig Htx Haddr Hn. destruct (pack_u32_be_in_range nout Hn) as [p Hp].
  unfold advance_claim_name_transaction, claim_id_hash. rewrite Hp.
  unfold claim_info_from_output. simpl out_claim.
  replace (truthy (Some txid) && truthy (Some (address_from_script pk))) with true
    by (simpl; apply String.eqb_neq in Htx, Haddr; rewrite Htx, Haddr; reflexivity).
  eexists _, _. split.
  - unfold bind at 1 2. cbn [out_pk_script out_value]. rewrite Hsig. simpl.
    unfold put_claim_for_name, put_claim_id_for_outpoint, outpoint_key. rewrite Hp. reflexivity.
  - simpl. apply lookup_insert_eq.
Qed.

(** A name claim or update whose payload yields no certificate gets a
    ClaimInfo with [cert_id = None]. *)
Lemma claim_info_from_output_no_cert (o : TxOutput) (name cid value : string) (st : State)
    (txid : string) (nout height : Z) :
  (out_claim o = NameClaim name value \/ out_claim o = ClaimUpdate name cid value) ->
  _checksig name value (address_from_script (out_pk_script o)) st = Ok None st ->
  txid <> EmptyString -> address_from_script (out_pk_script o) <> EmptyString ->
  claim_info_from_output o txid nout height st =
    Ok (mkClaimInfo name value txid nout (out_value o) (address_from_script (out_pk_script o))
          height None) st.
Proof.
  intros Hc Hsig Htx Haddr. unfold claim_info_from_output.
  replace (truthy (Some txid) && truthy (Some (address_from_script (out_pk_script o)))) with true
    by (simpl; apply String.eqb_neq in Htx, Haddr; rewrite Htx, Haddr; reflexivity).
  destruct Hc as [Hc|Hc]; rewrite Hc; unfold bind; rewrite Hsig; reflexivity.
Qed.

(** An update whose payload yields no certificate is staged under the
    claim id it updates, with [cert_id = None]. *)
Lemma update_claim_indexed_without_cert (name cid value : string) (st : State) (amount : Z)
    (pk txid : string) (nout height : Z) (old : ClaimInfo) :
  _checksig name value (address_from_script pk) st = Ok None st ->
  txid <> EmptyString -> address_from_script pk <> EmptyString -> 0 <= nout < 2 ^ 32 ->
  get_claim_info cid st = Ok (Some old) st -> 0 <= ci_nout old < 2 ^ 32 ->
  exists st',
    advance_update_claim (mkTxOutput amount pk (ClaimUpdate name cid value)) height txid nout st
      = Ok (cid, Some old) st' /\
    claim_cache st' !! cid =
      Some (Some (mkClaimInfo name value txid nout amount (address_from_script pk) height None)).
Proof.
  intros Hsig Htx Haddr Hn Hold Hon.
  destruct (pack_u32_be_in_range nout Hn) as [p Hp].
  destruct (pack_u32_be_in_range (ci_nout old) Hon) as [q Hq].
  assert (Hci := claim_info_from_output_no_cert (mkTxOutput amount pk (ClaimUpdate name cid value))
                   name cid value st txid nout height (or_intror eq_refl) Hsig Htx Haddr).
  unfold advance_update_claim. cbn [out_claim].
  unfold bind at 1. rewrite Hci. cbn beta iota.
  unfold bind at 1. rewrite Hold. cbn beta iota.
  unfold bind at 1. unfold put_claim_id_for_outpoint at 1, outpoint_key at 1, bind at 1.
  rewrite Hq. cbn beta iota. unfold ret at 1, modify at 1. cbn beta iota.
  unfold when_cert at 1, remove_claim_from_certificate_claims, get_signed_claim_ids_by_cert_id.
  destruct (ci_cert_id old) as [c|]; [destruct (truthy (Some c))|];
    unfold bind, put_claim_info, put_claim_id_for_outpoint, outpoint_key, modify, gets, ret, when_cert;
    rewrite ?Hp; cbn; (eexists; split; [reflexivity|apply lookup_insert_eq]).
Qed.
(** C6 (payload errors).  An invalid URI name, a value that does not parse,
    or (with validation on) a signature that fails against the stored
    certificate all make [_checksig] return [None]; the output is still
    indexed, with [cert_id = None]: a name claim under its new claim id, an
    update (of a stored claim) under the claim id it updates. *)
Theorem payload_error_nulls_cert_id (name value address : string) (st : State) :
  (parse_lbry_uri_ok name = false \/
   certificate_id_of value = None \/
   (should_validate_signatures st = true /\
    exists raw cc, certificate_id_of value = Some raw /\ string_rev raw <> EmptyString /\
      get_claim_info (string_rev raw) st = Ok (Some cc) st /\
      signature_valid value address (ci_value cc) = false)) ->
  _checksig name value address st = Ok None st /\
  (forall amount pk txid nout height,
     address_from_script pk = address -> txid <> EmptyString -> address <> EmptyString ->
     0 <= nout < 2 ^ 32 ->
     exists cid st',
       advance_claim_name_transaction (mkTxOutput amount pk (NameClaim name value)) height txid nout st
         = Ok (cid, None) st' /\
       claim_cache st' !! cid =
         Some (Some (mkClaimInfo name value txid nout amount address height None))) /\
  (forall amount pk cid txid nout height old,
     address_from_script pk = address -> txid <> EmptyString -> address <> EmptyString ->
     0 <= nout < 2 ^ 32 ->
     get_claim_info cid st = Ok (Some old) st -> 0 <= ci_nout old < 2 ^ 32 ->
     exists st',
       advance_update_claim (mkTxOutput amount pk (ClaimUpdate name cid value)) height txid nout st
         = Ok (cid, Some old) st' /\
       claim_cache st' !! cid =
         Some (Some (mkClaimInfo name value txid nout amount address height None))).
Proof.
  intros Herr.
  assert (Hsig : _checksig name value address st = Ok None st).
  { unfold _checksig. destruct Herr as [Hu | [Hv | (Hval & raw & cc & Hv & Hr & Hcc & Hbad)]].
    - rewrite Hu. reflexivity.
    - destruct (negb (parse_lbry_uri_ok name)); [reflexivity|]. rewrite Hv. reflexivity.
    - destruct (negb (parse_lbry_uri_ok name)); [reflexivity|]. rewrite Hv.
      apply String.eqb_neq in Hr. rewrite Hr.
      unfold bind at 1, gets. rewrite Hval. simpl.
      unfold bind. rewrite Hcc, Hbad. reflexivity. }
  split; [exact Hsig|]. split.
  - intros amount pk txid nout height Ha Htx Haddr Hn. subst address.
    apply name_claim_indexed_without_cert; assumption.
  - intros amount pk cid txid nout height old Ha Htx Haddr Hn Hold Hon. subst address.
    apply update_claim_indexed_without_cert; assumption.
Qed.

(** C10 (missing signer certificate).  With signature validation on, a
    value that names a certificate with no stored ClaimInfo yields
    [cert_id = None] whatever the name, and the output is indexed without
    it: a name claim under its new claim id, an update (of a stored claim)
    under the claim id it updates. *)
Theorem missing_certificate_nulls_cert_id (name value address raw : string) (st : State) :
  should_validate_signatures st = true ->
  certificate_id_of value = Some raw ->
  string_rev raw <> EmptyString ->
  get_claim_info (string_rev raw) st = Ok None st ->
  _checksig name value address st = Ok None st /\
  (forall amount pk txid nout height,
     address_from_script pk = address -> txid <> EmptyString -> address <> EmptyString ->
     0 <= nout < 2 ^ 32 ->
     exists cid st',
       advance_claim_name_transaction (mkTxOutput amount pk (NameClaim name value)) height txid nout st
         = Ok (cid, None) st' /\
       claim_cache st' !! cid =
         Some (Some (mkClaimInfo name value txid nout amount address height None))) /\
  (forall amount pk cid txid nout height old,
     address_from_script pk = address -> txid <> EmptyString -> address <> EmptyString ->
     0 <= nout < 2 ^ 32 ->
     get_claim_info cid st = Ok (Some old) st -> 0 <= ci_nout old < 2 ^ 32 ->
     exists st',
       advance_update_claim (mkTxOutput amount pk (ClaimUpdate name cid value)) height txid nout st
         = Ok (cid, Some old) st' /\
       claim_cache st' !! cid =
         Some (Some (mkClaimInfo name value txid nout amount address height None))).
Proof.
  intros Hval Hv Hr Hcc.
  assert (Hsig : _checksig name value address st = Ok None st).
  { unfold _checksig. destruct (negb (parse_lbry_uri_ok name)); [reflexivity|]. rewrite Hv.
    apply String.eqb_neq in Hr. rewrite Hr.
    unfold bind at 1, gets. rewrite Hval. simpl.
    unfold bind. rewrite Hcc. reflexivity. }
  split; [exact Hsig|]. split.
  - intros amount pk txid nout height Ha Htx Haddr Hn. subst address.
    apply name_claim_indexed_without_cert; assumption.
  - intros amount pk cid txid nout height old Ha Htx Haddr Hn Hold Hon. subst address.
    apply update_claim_indexed_without_cert; assumption.
Qed.

(** C5 (undo journal after rollback; corrected).  A successful rollback
    reads the journal entry of its height and leaves the [claim_undo] store
    as it was: the entry is not deleted. *)
Theorem backup_txs_keeps_undo_journal (h : Z) (st st' : State) :
  backup_txs h st = Ok tt st' -> claim_undo_db st' = claim_undo_db st.
Proof. intros E. exact (backup_txs_undo h st tt st' E). Qed.

End MoreClaimTheorems.

(** ** Claim-id derivation *)

Lemma yields_ret {A} (P : A -> Prop) (a : A) : P a -> yields P (ret a).
Proof. intros Ha st x st' E. inversion E; subst. exact Ha. Qed.

Lemma yields_raise {A} (P : A -> Prop) (e : Exn) : yields P (raise e).
Proof. intros st x st' E. discriminate E. Qed.

Lemma yields_bind {A B} (P : B -> Prop) (m : M A) (k : A -> M B) :
  (forall a, yields P (k a)) -> yields P (bind m k).
Proof.
  intros Hk st b st'' E. unfold bind in E.
  destruct (m st) as [a st'|e]; [exact (Hk a _ _ _ E) | discriminate E].
Qed.

Lemma byte_of_land (x : Z) :
  0 <= x -> Z.of_N (N_of_ascii (byte_of (Z.land x 255))) = x mod 256.
Proof.
  intros Hx. change 255 with (Z.ones 8). rewrite Z.land_ones by lia.
  change (2 ^ 8) with 256.
  assert (Hb : 0 <= x mod 256 < 256) by (apply Z.mod_pos_bound; lia).
  unfold byte_of. rewrite N_ascii_embedding by lia. lia.
Qed.

Lemma u32_be_digits (n : Z) :
  0 <= n < 2 ^ 32 ->
  ((n / 2 ^ 24 mod 256 * 256 + n / 2 ^ 16 mod 256) * 256 + n / 2 ^ 8 mod 256) * 256
    + n mod 256 = n.
Proof.
  intros Hn.
  assert (E16 : n / 2 ^ 16 = n / 2 ^ 8 / 2 ^ 8)
    by (rewrite Z.div_div by lia; reflexivity).
  assert (E24 : n / 2 ^ 24 = n / 2 ^ 16 / 2 ^ 8)
    by (rewrite Z.div_div by lia; reflexivity).
  assert (Hc : 0 <= n / 2 ^ 24 < 256).
  { split; [apply Z.div_pos; lia|]. apply Z.div_lt_upper_bound; lia. }
  rewrite (Z.mod_small (n / 2 ^ 24)) by lia.
  pose proof (Z.div_mod n (2 ^ 8) ltac:(lia)) as D0.
  pose proof (Z.div_mod (n / 2 ^ 8) (2 ^ 8) ltac:(lia)) as D1.
  pose proof (Z.div_mod (n / 2 ^ 16) (2 ^ 8) ltac:(lia)) as D2.
  rewrite <- E16 in D1. rewrite <- E24 in D2.
  change (2 ^ 8) with 256 in *.
  set (a := n / 256) in *. set (b := n / 2 ^ 16) in *. set (c := n / 2 ^ 24) in *.
  set (r0 := n mod 256) in *. set (r1 := a mod 256) in *. set (r2 := b mod 256) in *.
  clearbody a b c r0 r1 r2. lia.
Qed.

Lemma pack_u32_be_big_endian (n : Z) :
  0 <= n < 2 ^ 32 ->
  exists p, pack_u32_be n = Some p /\ String.length p = 4%nat /\ be_value p = n.
Proof.
  intros Hn. unfold pack_u32_be.
  replace ((0 <=? n) && (n <? 2 ^ 32)) with true by (symmetry; apply andb_true_iff; lia).
  eexists. split; [reflexivity|]. split; [reflexivity|].
  unfold be_value. cbn [be_value_acc].
  rewrite !byte_of_land by (try apply Z.shiftr_nonneg; lia).
  rewrite !Z.shiftr_div_pow2 by lia.
  etransitivity; [|apply (u32_be_digits n Hn)]. ring.
Qed.

Lemma advance_output_hash_free `{S : Schema} (H1 H2 : Hashing) tx txid height index o :
  (forall nm v, out_claim o <> NameClaim nm v) ->
  @advance_output H1 S tx txid height index o = @advance_output H2 S tx txid height index o.
Proof.
  intros Hno. unfold advance_output.
  destruct (out_claim o) eqn:Ec; try reflexivity. exfalso. eapply Hno; reflexivity.
Qed.

Lemma advance_outputs_hash_free `{S : Schema} (H1 H2 : Hashing) tx txid height outs :
  Forall (fun o => forall nm v, out_claim o <> NameClaim nm v) outs ->
  forall index st,
    @advance_outputs H1 S tx txid height index outs st
    = @advance_outputs H2 S tx txid height index outs st.
Proof.
  induction 1 as [|o outs Ho _ IH]; intros index st; simpl; [reflexivity|].
  unfold bind at 1 3. rewrite (advance_output_hash_free H1 H2 tx txid height index o Ho).
  destruct (@advance_output H2 S tx txid height index o st) as [r st'|e]; [|reflexivity].
  unfold bind. rewrite IH. reflexivity.
Qed.

Lemma advance_claim_tx_hash_free `{S : Schema} (H1 H2 : Hashing) tx txid height st :
  Forall (fun o => forall nm v, out_claim o <> NameClaim nm v) (tx_outputs tx) ->
  @advance_claim_tx H1 S tx txid height st = @advance_claim_tx H2 S tx txid height st.
Proof.
  intros Hno. unfold advance_claim_tx, bind at 1 3.
  destruct (has_claims tx); [|reflexivity].
  rewrite (advance_outputs_hash_free H1 H2 tx txid height _ Hno). reflexivity.
Qed.

(** C8 (claim-id derivation).  [claim_id_hash(txid, n)] is
    [RIPEMD160(SHA256(txid || p))] where [p] is the 4-byte big-endian
    encoding of [n]; a name claim is stored under that hash of its own
    outpoint; an accepted update keeps the claim id its output carries; and
    a transaction without name-claim outputs advances the same whatever the
    hash functions are, so it never derives a claim id. *)
Theorem claim_id_derivation `{S : Schema} (Hh : Hashing) (txid : string) (n : Z) :
  0 <= n < 2 ^ 32 ->
  (exists p, pack_u32_be n = Some p /\ String.length p = 4%nat /\ be_value p = n /\
     claim_id_hash txid n = Some (ripemd160 (sha256 (String.append txid p)))) /\
  (forall output height nout st u st',
     advance_claim_name_transaction output height txid nout st = Ok u st' ->
     claim_id_hash txid nout = Some (fst u)) /\
  (forall output height nout st u st' name cid value,
     out_claim output = ClaimUpdate name cid value ->
     advance_update_claim output height txid nout st = Ok u st' -> fst u = cid) /\
  (forall (H1 H2 : Hashing) tx height st,
     Forall (fun o => forall nm v, out_claim o <> NameClaim nm v) (tx_outputs tx) ->
     @advance_claim_tx H1 S tx txid height st = @advance_claim_tx H2 S tx txid height st).
Proof.
  intros Hn. split; [|split; [|split]].
  - destruct (pack_u32_be_big_endian n Hn) as (p & Hp & Hl & Hv).
    exists p. unfold claim_id_hash. rewrite Hp. auto.
  - intros output height nout st u st' E. unfold advance_claim_name_transaction in E.
    destruct (claim_id_hash txid nout) as [cid|] eqn:Ecid; [|discriminate E].
    f_equal. revert E. apply (yields_bind (fun u => cid = fst u)). intro ci.
    repeat (apply yields_bind; intro). apply yields_ret. reflexivity.
  - intros output height nout st u st' name cid value Hc E.
    unfold advance_update_claim in E. rewrite Hc in E. revert E.
    apply (yields_bind (fun u => fst u = cid)). intro ci.
    apply yields_bind. intros [old|]; [|apply yields_raise].
    repeat (apply yields_bind; intro). apply yields_ret. reflexivity.
  - intros H1 H2 tx height st Hno. apply advance_claim_tx_hash_free. exact Hno.
Qed.

(** ** Witnesses and counterexamples *)

Lemma remove_claim_for_name_renumbers_witness :
  get_claims_for_name "name" three_claims_state = Ok three_claims three_claims_state /\
  three_claims !! "id2" = Some 2 /\
  exists st' d',
    remove_claim_for_name "name" "id2" three_claims_state = Ok tt st' /\
    get_claims_for_name "name" st' = Ok d' st' /\
    d' !! "id2" = None /\
    (forall c', c' <> "id2" ->
       d' !! c' = (fun v => if 2 <? v then v - 1 else v) <$> three_claims !! c').
Proof.
  split; [reflexivity|]. split; [reflexivity|].
  apply (remove_claim_for_name_renumbers three_claims_state "name" "id2" 2 three_claims);
    reflexivity.
Defined.

Lemma update_without_prior_is_rejected_witness :
  get_claim_info "cid" empty_state = Ok None empty_state /\
  advance_output (mkTx [] [update_output]) "txb" 11 0 update_output empty_state
    = Ok (None, None) (set_error_log [("txb", "cid")] empty_state).
Proof.
  split; [reflexivity|].
  apply (update_without_prior_is_rejected (mkTx [] [update_output]) "txb" 11 0 update_output
           "name" "cid" "value2" empty_state);
    [reflexivity | left; reflexivity].
Defined.

Lemma backup_no_no_is_fatal_witness :
  get_claim_info "cid" empty_state = Ok None empty_state /\
  backup_from_undo_info "cid" None empty_state = Err InconsistentDatabase.
Proof.
  split; [reflexivity|].
  apply (backup_no_no_is_fatal "cid" empty_state 10). reflexivity.
Defined.

Lemma accepted_update_keeps_name_index_witness :
  advance_output update_tx "txb" 11 0 update_output stored_state
    = Ok (Some ("cid", Some demo_claim), Some (mkTxInput "txa" 1)) update_result /\
  claims_for_name_cache update_result = claims_for_name_cache stored_state /\
  names_db update_result = names_db stored_state.
Proof.
  assert (E : advance_output update_tx "txb" 11 0 update_output stored_state
    = Ok (Some ("cid", Some demo_claim), Some (mkTxInput "txa" 1)) update_result)
    by (vm_compute; reflexivity).
  split; [exact E|].
  destruct (accepted_update_keeps_name_index update_tx "txb" 11 0 update_output
              "name" "cid" "value2" stored_state update_result _ _ eq_refl E)
    as (H1 & H2 & _).
  split; assumption.
Defined.

Lemma payload_error_nulls_cert_id_witness :
  signature_valid "forged" "addr" (ci_value demo_claim) = false /\
  _checksig "name" "forged" "addr" validating_state = Ok None validating_state /\
  (exists cid st',
    advance_claim_name_transaction (mkTxOutput 5 "addr" (NameClaim "name" "forged")) 12 "txc" 0
      validating_state = Ok (cid, None) st' /\
    claim_cache st' !! cid = Some (Some (mkClaimInfo "name" "forged" "txc" 0 5 "addr" 12 None))) /\
  exists st',
    advance_update_claim (mkTxOutput 5 "addr" (ClaimUpdate "name" "cert" "forged")) 12 "txc" 0
      validating_state = Ok ("cert", Some demo_claim) st' /\
    claim_cache st' !! "cert" = Some (Some (mkClaimInfo "name" "forged" "txc" 0 5 "addr" 12 None)).
Proof.
  split; [reflexivity|].
  destruct (payload_error_nulls_cert_id "name" "forged" "addr" validating_state) as [Hs [Hi Hu]].
  { right; right. split; [reflexivity|]. exists "trec", demo_claim.
    split; [reflexivity|]. split; [discriminate|]. split; reflexivity. }
  split; [exact Hs|]. split.
  - apply Hi; [reflexivity | discriminate | discriminate | lia].
  - apply Hu; [reflexivity | discriminate | discriminate | lia | reflexivity | simpl; lia].
Defined.

Lemma missing_certificate_nulls_cert_id_witness :
  _checksig "name" "signed" "addr" validating_empty_state = Ok None validating_empty_state /\
  (exists cid st',
    advance_claim_name_transaction (mkTxOutput 5 "addr" (NameClaim "name" "signed")) 12 "txc" 0
      validating_empty_state = Ok (cid, None) st' /\
    claim_cache st' !! cid = Some (Some (mkClaimInfo "name" "signed" "txc" 0 5 "addr" 12 None))) /\
  _checksig "" "signed" "addr" validating_stored_state = Ok None validating_stored_state /\
  exists st',
    advance_update_claim (mkTxOutput 5 "addr" (ClaimUpdate "" "cid" "signed")) 12 "txc" 0
      validating_stored_state = Ok ("cid", Some demo_claim) st' /\
    claim_cache st' !! "cid" = Some (Some (mkClaimInfo "" "signed" "txc" 0 5 "addr" 12 None)).
Proof.
  destruct (missing_certificate_nulls_cert_id "name" "signed" "addr" "trec" validating_empty_state)
    as [Hs [Hi _]]; [reflexivity | reflexivity | discriminate | reflexivity |].
  split; [exact Hs|]. split.
  { apply Hi; [reflexivity | discriminate | discriminate | lia]. }
  destruct (missing_certificate_nulls_cert_id "" "signed" "addr" "trec" validating_stored_state)
    as [Hs' [_ Hu]]; [reflexivity | reflexivity | discriminate | reflexivity |].
  split; [exact Hs'|].
  apply Hu; [reflexivity | discriminate | discriminate | lia | reflexivity | simpl; lia].
Defined.

Lemma backup_txs_keeps_undo_journal_witness :
  backup_txs 10 stored_state = Ok tt rollback_result /\
  claim_undo_db rollback_result = claim_undo_db stored_state.
Proof.
  assert (E : backup_txs 10 stored_state = Ok tt rollback_result) by (vm_compute; reflexivity).
  split; [exact E|]. exact (backup_txs_keeps_undo_journal 10 stored_state rollback_result E).
Defined.

(** C5, as stated, fails: after a successful rollback of height 10 the
    journal entry under [u32_be(10)] is still in the store. *)
Lemma undo_entry_survives_rollback :
  exists st', backup_txs 10 stored_state = Ok tt st' /\
    claim_undo_db st' !! demo_key EmptyString 10 <> None.
Proof.
  exists rollback_result. split; vm_compute; [reflexivity | discriminate].
Qed.

Lemma claim_id_derivation_witness :
  exists p, pack_u32_be 4 = Some p /\ String.length p = 4%nat /\ be_value p = 4 /\
    claim_id_hash "txa" 4 = Some (ripemd160 (sha256 (String.append "txa" p))).
Proof.
  apply (claim_id_derivation demo_hashing "txa" 4). lia.
Defined.

(** ** Further properties of the cache layer *)

Lemma map_fold_write_lookup {A B} (f : string -> A -> gmap string B -> gmap string B)
    (g : A -> option B) (cache : gmap string A) (db : gmap string B) (k : string) :
  (forall key v m, f key v m = match g v with Some b => <[key := b]> m | None => delete key m end) ->
  map_fold f db cache !! k = match cache !! k with Some v => g v | None => db !! k end.
Proof.
  intros Hf. revert k.
  apply (map_fold_weak_ind (fun r m => forall k,
           r !! k = match m !! k with Some v => g v | None => db !! k end)).
  - intros k. rewrite lookup_empty. reflexivity.
  - intros i x m r Hi IH k. rewrite Hf.
    destruct (decide (k = i)) as [->|Hne].
    + rewrite lookup_insert_eq. destruct (g x); [apply lookup_insert_eq | apply lookup_delete_eq].
    + rewrite lookup_insert_ne by congruence.
      destruct (g x); [rewrite lookup_insert_ne by congruence | rewrite lookup_delete_ne by congruence];
        apply IH.
Qed.

Lemma write_claims_lookup cache db k :
  write_claims cache db !! k = match cache !! k with Some v => v | None => db !! k end.
Proof. apply (map_fold_write_lookup _ (fun v => v)). intros key [c|] m; reflexivity. Qed.

Lemma write_names_lookup cache db k :
  write_names cache db !! k =
  match cache !! k with Some d => if decide (d = ∅) then None else Some d | None => db !! k end.
Proof.
  apply (map_fold_write_lookup _ (fun d : NamesDict => if decide (d = ∅) then None else Some d)).
  intros key d m. destruct (decide (d = ∅)); reflexivity.
Qed.

Lemma write_certs_lookup cache db k :
  write_certs cache db !! k =
  match cache !! k with Some l => match l with [] => None | _ => Some l end | None => db !! k end.
Proof.
  apply (map_fold_write_lookup _ (fun l : list string => match l with [] => None | _ => Some l end)).
  intros key [|x l] m; reflexivity.
Qed.

Lemma write_outpoints_lookup cache db k :
  write_outpoints cache db !! k =
  match cache !! k with
  | Some v => match v with Some c => if truthy v then Some c else None | None => None end
  | None => db !! k
  end.
Proof.
  apply (map_fold_write_lookup _
    (fun v : option string => match v with Some c => if truthy v then Some c else None | None => None end)).
  intros key [c|] m; [destruct (truthy (Some c))|]; reflexivity.
Qed.

Lemma flush_claims_no_pending (st : State) :
  pending_abandons st = [] -> flush_claims st = Ok tt (flushed st).
Proof. intros Hp. unfold flush_claims, bind, gets. rewrite Hp. reflexivity. Qed.

(** Flushing empty caches with no pending abandon changes nothing. *)
Theorem flush_empty_caches_is_noop (st : State) :
  claim_cache st = ∅ -> claims_for_name_cache st = ∅ -> claims_signed_by_cert_cache st = ∅ ->
  outpoint_to_claim_id_cache st = ∅ -> pending_abandons st = [] ->
  flush_claims st = Ok tt st.
Proof.
  intros H1 H2 H3 H4 H5. rewrite flush_claims_no_pending by exact H5. f_equal.
  unfold flushed, write_claims, write_names, write_certs, write_outpoints.
  rewrite H1, H2, H3, H4, !map_fold_empty, <- H1, <- H2, <- H3, <- H4, <- H5.
  destruct st. reflexivity.
Qed.

(** With no pending abandon, a flush is invisible to the name and
    certificate reads: every name's claims and every certificate's claim
    list read the same before and after, and the caches are emptied. *)
Theorem flush_keeps_name_and_cert_reads (st : State) :
  pending_abandons st = [] ->
  flush_claims st = Ok tt (flushed st) /\
  claims_for_name_cache (flushed st) = ∅ /\ claims_signed_by_cert_cache (flushed st) = ∅ /\
  (forall n d, get_claims_for_name n st = Ok d st ->
     get_claims_for_name n (flushed st) = Ok d (flushed st)) /\
  (forall c l, get_signed_claim_ids_by_cert_id c st = Ok l st ->
     get_signed_claim_ids_by_cert_id c (flushed st) = Ok l (flushed st)).
Proof.
  intros Hp. split; [apply flush_claims_no_pending, Hp|]. split; [reflexivity|]. split; [reflexivity|].
  split.
  - intros n d E. unfold get_claims_for_name, gets in *. injection E as <-. simpl.
    rewrite lookup_empty, write_names_lookup.
    destruct (claims_for_name_cache st !! n) as [d|]; [|reflexivity].
    destruct (decide (d = ∅)) as [->|]; reflexivity.
  - intros c l E. unfold get_signed_claim_ids_by_cert_id, gets in *. injection E as <-. simpl.
    rewrite lookup_empty, write_certs_lookup.
    destruct (claims_signed_by_cert_cache st !! c) as [[|x l]|]; reflexivity.
Qed.

(** With no pending abandon, after a flush the claim and outpoint reads
    return exactly what was staged: a staged ClaimInfo or claim id, [None]
    for a staged deletion (or an empty claim id), and the stored value for
    an unstaged key. *)
Theorem flush_settles_staged_reads (st : State) :
  pending_abandons st = [] ->
  (forall c, get_claim_info c (flushed st) =
     Ok (match claim_cache st !! c with Some v => v | None => claims_db st !! c end) (flushed st)) /\
  (forall t i p, pack_u32_be i = Some p ->
     get_claim_id_from_outpoint t i (flushed st) =
     Ok (match outpoint_to_claim_id_cache st !! String.append t p with
         | Some v => if truthy v then v else None
         | None => outpoint_to_claim_id_db st !! String.append t p
         end) (flushed st)).
Proof.
  intros Hp. split.
  - intros c. rewrite get_claim_info_value. simpl. rewrite lookup_empty, write_claims_lookup.
    reflexivity.
  - intros t i p Hpk. unfold get_claim_id_from_outpoint, outpoint_key, bind, gets. rewrite Hpk.
    simpl. unfold ret. rewrite lookup_empty, write_outpoints_lookup. simpl.
    destruct (outpoint_to_claim_id_cache st !! String.append t p) as [[c|]|]; [|reflexivity|].
    + destruct (truthy (Some c)); reflexivity.
    + destruct (outpoint_to_claim_id_db st !! String.append t p); reflexivity.
Qed.

(** ** The name index: sequence numbers *)

Lemma foldr_max_ge (xs : list Z) (v x : Z) :
  x = v \/ In x xs -> x <= foldr Z.max v xs.
Proof.
  induction xs as [|y xs IH]; simpl; intros Hx.
  - destruct Hx as [->|[]]. lia.
  - destruct Hx as [->|[->|Hx]].
    + specialize (IH (or_introl eq_refl)). lia.
    + lia.
    + specialize (IH (or_intror Hx)). lia.
Qed.

Lemma foldr_max_le (xs : list Z) (v b : Z) :
  v <= b -> Forall (fun x => x <= b) xs -> foldr Z.max v xs <= b.
Proof. intros Hv. induction 1; simpl; lia. Qed.

Lemma max_values_ge (d : NamesDict) c v : d !! c = Some v -> v <= max_values d.
Proof.
  intros Hc. apply elem_of_map_to_list in Hc. unfold max_values.
  destruct (map_to_list d) as [|[k w] rest]; [apply elem_of_nil in Hc; contradiction|].
  apply elem_of_cons in Hc as [Hc|Hc].
  - injection Hc as -> ->. apply foldr_max_ge. left. reflexivity.
  - apply foldr_max_ge. right. apply in_map_iff. exists (c, v). split; [reflexivity|].
    apply list_elem_of_In, Hc.
Qed.

Lemma max_values_le (d : NamesDict) b :
  0 <= b -> (forall c v, d !! c = Some v -> v <= b) -> max_values d <= b.
Proof.
  intros Hb Hall. unfold max_values.
  assert (Hl : forall k w, (k, w) ∈ map_to_list d -> w <= b)
    by (intros k w Hk; apply elem_of_map_to_list in Hk; eauto).
  destruct (map_to_list d) as [|[k w] rest]; [exact Hb|].
  apply foldr_max_le; [apply (Hl k); left|].
  apply Forall_forall. intros x Hx. apply list_elem_of_In, in_map_iff in Hx as [[k' x'] [<- Hin]].
  apply (Hl k'). right. apply list_elem_of_In, Hin.
Qed.

Lemma max_values_nonneg (d : NamesDict) :
  (forall c v, d !! c = Some v -> 0 <= v) -> 0 <= max_values d.
Proof.
  intros Hall. unfold max_values. destruct (map_to_list d) as [|[k w] rest] eqn:E; [lia|].
  assert (Hk : d !! k = Some w) by (apply elem_of_map_to_list; rewrite E; left).
  specialize (Hall _ _ Hk). etransitivity; [exact Hall|]. apply foldr_max_ge. left. reflexivity.
Qed.

Lemma size_delete_lookup {A} (m : gmap string A) k x :
  m !! k = Some x -> size m = S (size (delete k m)).
Proof.
  intros Hk. rewrite <- (insert_delete_id m k x Hk) at 1.
  apply map_size_insert_None, lookup_delete_eq.
Qed.

Lemma compact_sequences_iff (d : NamesDict) :
  compact_sequences d <->
  (forall c v, d !! c = Some v -> 1 <= v <= Z.of_nat (size d)) /\
  (forall c1 c2 v, d !! c1 = Some v -> d !! c2 = Some v -> c1 = c2).
Proof.
  unfold compact_sequences. rewrite !map_Forall_lookup. split.
  - intros [Hr Hi]. split; [exact Hr|]. intros c1 c2 v H1 H2.
    exact (proj1 (map_Forall_lookup _ _) (Hi _ _ H1) _ _ H2 eq_refl).
  - intros [Hr Hi]. split; [exact Hr|]. intros c1 v H1. apply map_Forall_lookup.
    intros c2 w H2 <-. exact (Hi _ _ _ H1 H2).
Qed.

Section NameIndex.
Context `{Hashing} `{Schema}.

(** [put_claim_for_name]: a claim new to the name gets the largest
    sequence number plus one, which is above every sequence already
    there; a claim already under the name keeps its number; the other
    claims of the name are untouched. *)
Theorem put_claim_for_name_sequence (st : State) (n c : string) (d : NamesDict) :
  get_claims_for_name n st = Ok d st ->
  exists st' d', put_claim_for_name n c st = Ok tt st' /\
    get_claims_for_name n st' = Ok d' st' /\
    d' !! c = Some (match d !! c with Some v => v | None => max_values d + 1 end) /\
    (forall c', c' <> c -> d' !! c' = d !! c') /\
    (d !! c = None -> forall c' v, d !! c' = Some v -> v < max_values d + 1).
Proof.
  intros Hd. unfold put_claim_for_name, bind. rewrite Hd. unfold modify.
  eexists _, _. split; [reflexivity|]. split; [rewrite get_claims_for_name_value; simpl;
    rewrite lookup_insert_eq; reflexivity|].
  destruct (d !! c) as [v|] eqn:Ec.
  - split; [exact Ec|]. split; [reflexivity|]. discriminate.
  - split; [apply lookup_insert_eq|]. split; [intros c' Hne; apply lookup_insert_ne; congruence|].
    intros _ c' v Hv. pose proof (max_values_ge d c' v Hv). lia.
Qed.

Lemma put_compact (d : NamesDict) c :
  compact_sequences d ->
  compact_sequences (match d !! c with Some _ => d | None => <[c := max_values d + 1]> d end).
Proof.
  rewrite !compact_sequences_iff. intros [Hr Hi]. destruct (d !! c) as [v|] eqn:Ec; [split; assumption|].
  assert (Hmax : max_values d <= Z.of_nat (size d))
    by (apply max_values_le; [lia | intros c' v Hv; apply (Hr _ _ Hv)]).
  assert (Hmin : 0 <= max_values d)
    by (apply max_values_nonneg; intros c' v Hv; pose proof (Hr _ _ Hv); lia).
  rewrite <- (Nat2Z.id (size d)) in Hmax.
  split.
  - rewrite map_size_insert_None by exact Ec. intros c' v.
    destruct (decide (c' = c)) as [->|Hne].
    + rewrite lookup_insert_eq. intros [= <-]. lia.
    + rewrite lookup_insert_ne by congruence. intros Hv. pose proof (Hr _ _ Hv). lia.
  - intros c1 c2 v.
    destruct (decide (c1 = c)) as [->|H1], (decide (c2 = c)) as [->|H2]; try reflexivity;
      [rewrite lookup_insert_eq, lookup_insert_ne by congruence
      |rewrite lookup_insert_ne, lookup_insert_eq by congruence
      |rewrite !lookup_insert_ne by congruence; apply Hi].
    + intros [= <-] Hv. pose proof (max_values_ge _ _ _ Hv). lia.
    + intros Hv [= <-]. pose proof (max_values_ge _ _ _ Hv). lia.
Qed.

Lemma remove_compact (d : NamesDict) c k :
  compact_sequences d -> d !! c = Some k ->
  compact_sequences (fmap (fun number => if k <? number then number - 1 else number)
                          (delete c d)).
Proof.
  rewrite !compact_sequences_iff. intros [Hr Hi] Hc. pose proof (size_delete_lookup d c k Hc) as Hs.
  pose proof (Hr _ _ Hc) as Hk.
  assert (Hne : forall c' v, delete c d !! c' = Some v -> d !! c' = Some v /\ v <> k).
  { intros c' v Hv. destruct (decide (c' = c)) as [->|Hne].
    - rewrite lookup_delete_eq in Hv. discriminate.
    - rewrite lookup_delete_ne in Hv by congruence. split; [exact Hv|].
      intros ->. apply Hne, (Hi _ _ _ Hv Hc). }
  split.
  - intros c' w. rewrite lookup_fmap, map_size_fmap.
    destruct (delete c d !! c') as [v|] eqn:Ev; [|discriminate]. simpl. intros [= <-].
    destruct (Hne _ _ Ev) as [Hv Hvk]. pose proof (Hr _ _ Hv).
    rewrite Hs in *. destruct (Z.ltb_spec k v); lia.
  - intros c1 c2 w. rewrite !lookup_fmap.
    destruct (delete c d !! c1) as [v1|] eqn:E1; [|discriminate].
    destruct (delete c d !! c2) as [v2|] eqn:E2; [|discriminate]. simpl.
    destruct (Hne _ _ E1) as [Hv1 Hk1], (Hne _ _ E2) as [Hv2 Hk2].
    intros [= Hw1] [= Hw2]. assert (v1 = v2).
    { subst w. destruct (Z.ltb_spec k v1), (Z.ltb_spec k v2); lia. }
    subst v2. exact (Hi _ _ _ Hv1 Hv2).
Qed.

(** Adding a claim to a name keeps its sequence numbers compact: if they
    were exactly [1 .. size] without repetition, they still are. *)
Theorem put_claim_for_name_keeps_compact (st : State) (n c : string) (d : NamesDict) :
  get_claims_for_name n st = Ok d st -> compact_sequences d ->
  exists st' d', put_claim_for_name n c st = Ok tt st' /\
    get_claims_for_name n st' = Ok d' st' /\ compact_sequences d' /\ d' !! c <> None.
Proof.
  intros Hd Hc. unfold put_claim_for_name, bind. rewrite Hd. unfold modify.
  eexists _, _. split; [reflexivity|]. split; [rewrite get_claims_for_name_value; simpl;
    rewrite lookup_insert_eq; reflexivity|].
  split; [apply put_compact, Hc|].
  destruct (d !! c) eqn:E; [congruence|]. rewrite lookup_insert_eq. discriminate.
Qed.

(** Removing a claim of a name keeps its sequence numbers compact, and
    the claim is no longer listed under the name. *)
Theorem remove_claim_for_name_keeps_compact (st : State) (n c : string) (d : NamesDict) (k : Z) :
  get_claims_for_name n st = Ok d st -> compact_sequences d -> d !! c = Some k ->
  exists st' d', remove_claim_for_name n c st = Ok tt st' /\
    get_claims_for_name n st' = Ok d' st' /\ compact_sequences d' /\ d' !! c = None.
Proof.
  intros Hd Hc Hk. unfold remove_claim_for_name, bind. rewrite Hd, Hk. unfold modify.
  eexists _, _. split; [reflexivity|]. split; [rewrite get_claims_for_name_value; simpl;
    rewrite lookup_insert_eq; reflexivity|].
  split; [apply (remove_compact d c k Hc Hk)|].
  rewrite lookup_fmap, lookup_delete_eq. reflexivity.
Qed.


End NameIndex.

(** ** Outpoints and pending abandons *)

Lemma string_append_length_inj (t t' p p' : string) :
  String.length t = String.length t' -> String.append t p = String.append t' p' -> t = t' /\ p = p'.
Proof.
  revert t'. induction t as [|a t IH]; intros [|a' t'] Hl He; simpl in *; try discriminate.
  - split; [reflexivity|exact He].
  - injection Hl as Hl. injection He as -> He. destruct (IH t' Hl He) as [-> ->]. split; reflexivity.
Qed.

Lemma string_append_length (t p : string) :
  String.length (String.append t p) = (String.length t + String.length p)%nat.
Proof. induction t as [|a t IH]; simpl; [reflexivity|]. rewrite IH. reflexivity. Qed.

(** Distinct outpoints with a 4-byte index have distinct keys
    [tx_hash + struct.pack('>I', tx_idx)], whatever the hash lengths. *)
Lemma outpoint_key_inj (t t' p p' : string) (i i' : Z) :
  pack_u32_be i = Some p -> pack_u32_be i' = Some p' ->
  String.append t p = String.append t' p' -> t = t' /\ i = i'.
Proof.
  intros Hp Hp' He.
  assert (Ri : 0 <= i < 2 ^ 32).
  { unfold pack_u32_be in Hp. destruct ((0 <=? i) && (i <? 2 ^ 32)) eqn:B; [|discriminate].
    apply andb_true_iff in B as [B1 B2]. lia. }
  assert (Ri' : 0 <= i' < 2 ^ 32).
  { unfold pack_u32_be in Hp'. destruct ((0 <=? i') && (i' <? 2 ^ 32)) eqn:B; [|discriminate].
    apply andb_true_iff in B as [B1 B2]. lia. }
  destruct (pack_u32_be_big_endian i Ri) as (q & Hq & Lq & Vq).
  destruct (pack_u32_be_big_endian i' Ri') as (q' & Hq' & Lq' & Vq').
  rewrite Hp in Hq. injection Hq as <-. rewrite Hp' in Hq'. injection Hq' as <-.
  assert (Hl : String.length t = String.length t').
  { pose proof (f_equal String.length He) as E. rewrite !string_append_length, Lq, Lq' in E. lia. }
  destruct (string_append_length_inj t t' p p' Hl He) as [-> ->]. split; [reflexivity|].
  rewrite <- Vq, <- Vq'. reflexivity.
Qed.

Lemma setdefault_append_get (c c' : string) (o : string * Z) p :
  pending_get c' (setdefault_append c o p) =
  if String.eqb c c' then Some (match pending_get c p with Some os => os | None => [] end ++ [o])
  else pending_get c' p.
Proof.
  induction p as [|[k os] r IH]; simpl.
  - destruct (String.eqb c c'); reflexivity.
  - destruct (String.eqb_spec k c) as [->|Hk]; simpl.
    + destruct (String.eqb_spec c c'); reflexivity.
    + rewrite IH. destruct (String.eqb_spec k c') as [->|Hk']; simpl.
      * destruct (String.eqb_spec c c') as [->|]; [congruence|reflexivity].
      * reflexivity.
Qed.

Section Outpoints.
Context `{Hashing} `{Schema}.

(** An outpoint index must fit in four bytes: outside [0, 2^32) the
    outpoint operations raise [struct.error] and change nothing. *)
Theorem outpoint_index_out_of_range (t : string) (i : Z) (c : option string) (st : State) :
  ~ (0 <= i < 2 ^ 32) ->
  put_claim_id_for_outpoint t i c st = Err StructError /\
  remove_claim_id_for_outpoint t i st = Err StructError /\
  get_claim_id_from_outpoint t i st = Err StructError /\
  abandon_spent t i st = Err StructError.
Proof.
  intros Hi.
  assert (Hp : pack_u32_be i = None).
  { unfold pack_u32_be. destruct ((0 <=? i) && (i <? 2 ^ 32)) eqn:B; [|reflexivity].
    apply andb_true_iff in B as [B1 B2]. lia. }
  unfold put_claim_id_for_outpoint, remove_claim_id_for_outpoint, abandon_spent,
    get_claim_id_from_outpoint, outpoint_key, bind. rewrite Hp. repeat split.
Qed.

(** Writing a non-empty claim id for an outpoint is read back by
    [get_claim_id_from_outpoint], and reads of every other outpoint are
    unchanged. *)
Theorem outpoint_put_get (t : string) (i : Z) (c : string) (st : State) :
  0 <= i < 2 ^ 32 -> c <> EmptyString ->
  exists st', put_claim_id_for_outpoint t i (Some c) st = Ok tt st' /\
    get_claim_id_from_outpoint t i st' = Ok (Some c) st' /\
    (forall t' i' r, (t', i') <> (t, i) ->
       get_claim_id_from_outpoint t' i' st = Ok r st ->
       get_claim_id_from_outpoint t' i' st' = Ok r st').
Proof.
  intros Hi Hc. destruct (pack_u32_be_in_range i Hi) as [p Hp].
  unfold put_claim_id_for_outpoint, outpoint_key, bind. rewrite Hp. unfold ret, modify.
  eexists. split; [reflexivity|]. split.
  - unfold get_claim_id_from_outpoint, outpoint_key, bind, gets, ret. rewrite Hp. simpl.
    rewrite lookup_insert_eq. simpl. destruct (String.eqb_spec c EmptyString); [congruence|].
    reflexivity.
  - intros t' i' r Hne. unfold get_claim_id_from_outpoint, outpoint_key, bind, gets, ret.
    destruct (pack_u32_be i') as [p'|] eqn:Hp'; [|intros E; discriminate E].
    intros E. injection E as <-. simpl. rewrite lookup_insert_ne; [reflexivity|].
    intros He. destruct (outpoint_key_inj t t' p p' i i' Hp Hp' He) as [-> ->]. congruence.
Qed.

Lemma abandon_spent_spec (t : string) (i : Z) (st : State) (r : option string) :
  get_claim_id_from_outpoint t i st = Ok r st ->
  (truthy r = false -> abandon_spent t i st = Ok None st) /\
  (forall c, r = Some c -> truthy r = true ->
     exists st', abandon_spent t i st = Ok (Some c) st' /\
       pending_get c (pending_abandons st') =
         Some (match pending_get c (pending_abandons st) with Some os => os | None => [] end
               ++ [(t, i)]) /\
       (forall c', c' <> c -> pending_get c' (pending_abandons st') = pending_get c' (pending_abandons st)) /\
       st' = set_pending (pending_abandons st') st).
Proof.
  intros Hr. unfold abandon_spent, bind. rewrite Hr. split.
  - intros Hf. destruct r as [c|]; [|reflexivity]. rewrite Hf. reflexivity.
  - intros c -> Ht. rewrite Ht. unfold modify, ret. eexists. split; [reflexivity|].
    simpl. rewrite setdefault_append_get, String.eqb_refl. split; [reflexivity|]. split.
    + intros c' Hne. rewrite setdefault_append_get.
      destruct (String.eqb_spec c c'); [congruence|reflexivity].
    + destruct st; reflexivity.
Qed.

(** [abandon_spent]: spending an outpoint that maps to no claim (or to an
    empty id) changes nothing and returns [None]; spending a claim's
    outpoint returns the claim id and appends the outpoint to that
    claim's pending abandons, leaving the other claims' entries alone. *)
Theorem abandon_spent_outcomes (t : string) (i : Z) (st : State) (r : option string) :
  get_claim_id_from_outpoint t i st = Ok r st ->
  (truthy r = false -> abandon_spent t i st = Ok None st) /\
  (forall c, r = Some c -> truthy r = true ->
     exists st', abandon_spent t i st = Ok (Some c) st' /\
       pending_get c (pending_abandons st') =
         Some (match pending_get c (pending_abandons st) with Some os => os | None => [] end
               ++ [(t, i)]) /\
       (forall c', c' <> c -> pending_get c' (pending_abandons st') = pending_get c' (pending_abandons st)) /\
       st' = set_pending (pending_abandons st') st).
Proof. exact (abandon_spent_spec t i st r). Qed.

End Outpoints.

(** ** The certificate index *)

Lemma list_remove_elem (x y : string) (l : list string) :
  y <> x -> (y ∈ list_remove x l <-> y ∈ l).
Proof.
  intros Hne. induction l as [|z l IH]; simpl; [reflexivity|].
  destruct (String.eqb_spec x z) as [->|Hz].
  - rewrite elem_of_cons. split; [auto|]. intros [->|H']; [congruence|exact H'].
  - rewrite !elem_of_cons, IH. reflexivity.
Qed.

Lemma list_remove_nodup (x : string) (l : list string) :
  NoDup l -> x ∉ list_remove x l.
Proof.
  induction 1 as [|z l Hz Hl IH]; simpl; [apply not_elem_of_nil|].
  destruct (String.eqb_spec x z) as [->|Hxz]; [exact Hz|].
  rewrite elem_of_cons. intros [->|H']; [congruence|exact (IH H')].
Qed.

Lemma list_remove_absent (x : string) (l : list string) :
  existsb (String.eqb x) l = false -> list_remove x l = l.
Proof.
  induction l as [|z l IH]; simpl; [reflexivity|]. intros Ex.
  apply orb_false_iff in Ex as [E1 E2]. rewrite E1, IH by exact E2. reflexivity.
Qed.

Lemma existsb_eqb_false (x : string) (l : list string) :
  x ∉ l -> existsb (String.eqb x) l = false.
Proof.
  induction l as [|z l IH]; simpl; [reflexivity|]. intros Hn.
  destruct (String.eqb_spec x z) as [->|]; [destruct Hn; left|].
  apply IH. intros Hx. apply Hn. right. exact Hx.
Qed.

Section CertIndex.
Context `{Hashing} `{Schema}.

(** Signing a claim by a certificate appends the claim id at the end of
    that certificate's list (without checking for duplicates); the lists
    of the other certificates read as before. *)
Theorem put_signed_appends (ce c : string) (st : State) (l : list string) :
  get_signed_claim_ids_by_cert_id ce st = Ok l st ->
  exists st', put_claim_id_signed_by_cert_id ce c st = Ok tt st' /\
    get_signed_claim_ids_by_cert_id ce st' = Ok (l ++ [c]) st' /\
    (forall ce' l', ce' <> ce -> get_signed_claim_ids_by_cert_id ce' st = Ok l' st ->
       get_signed_claim_ids_by_cert_id ce' st' = Ok l' st').
Proof.
  intros Hl. unfold put_claim_id_signed_by_cert_id, bind. rewrite Hl. unfold modify.
  eexists. split; [reflexivity|]. split.
  - unfold get_signed_claim_ids_by_cert_id, gets. simpl. rewrite lookup_insert_eq. reflexivity.
  - intros ce' l' Hne E. unfold get_signed_claim_ids_by_cert_id, gets in *. injection E as <-.
    simpl. rewrite lookup_insert_ne by congruence. reflexivity.
Qed.

(** Removing a claim from a certificate's list drops its first
    occurrence only and keeps every other claim id; when the list has no
    duplicates the claim is gone afterwards.  A claim not listed leaves
    the list as it was. *)
Theorem remove_from_cert_drops_first (ce c : string) (st : State) (l : list string) :
  get_signed_claim_ids_by_cert_id ce st = Ok l st ->
  exists st' l', remove_claim_from_certificate_claims ce c st = Ok tt st' /\
    get_signed_claim_ids_by_cert_id ce st' = Ok l' st' /\
    l' = list_remove c l /\
    (forall y, y <> c -> y ∈ l' <-> y ∈ l) /\
    (NoDup l -> c ∉ l') /\
    (c ∉ l -> l' = l).
Proof.
  intros Hl. unfold remove_claim_from_certificate_claims, bind. rewrite Hl. unfold modify.
  assert (Hrm : (if existsb (String.eqb c) l then list_remove c l else l) = list_remove c l).
  { destruct (existsb (String.eqb c) l) eqn:Ex; [reflexivity|].
    symmetry. apply list_remove_absent, Ex. }
  rewrite Hrm. eexists _, _. split; [reflexivity|]. split.
  { unfold get_signed_claim_ids_by_cert_id, gets. simpl. rewrite lookup_insert_eq. reflexivity. }
  split; [reflexivity|]. split; [intros y Hy; apply list_remove_elem, Hy|].
  split; [apply list_remove_nodup|].
  intros Hn. apply list_remove_absent, existsb_eqb_false, Hn.
Qed.

(** [remove_certificate] stages an empty list: the certificate then
    reads as signing nothing, and the flush deletes its stored entry. *)
Theorem remove_certificate_empties (ce : string) (st : State) :
  exists st', remove_certificate ce st = Ok tt st' /\
    get_signed_claim_ids_by_cert_id ce st' = Ok [] st' /\
    (pending_abandons st' = [] -> signatures_db (flushed st') !! ce = None).
Proof.
  eexists. split; [reflexivity|]. split.
  - unfold get_signed_claim_ids_by_cert_id, gets. simpl. rewrite lookup_insert_eq. reflexivity.
  - intros _. simpl. rewrite write_certs_lookup. simpl. rewrite lookup_insert_eq. reflexivity.
Qed.

End CertIndex.

(** ** Block advance and rollback, composed *)

Lemma bind_Ok {A B} (m : M A) (k : A -> M B) st a s :
  m st = Ok a s -> bind m k st = k a s.
Proof. unfold bind. intros ->. reflexivity. Qed.

Lemma bind_ok {A B} (m : M A) (k : A -> M B) st b st'' :
  bind m k st = Ok b st'' -> exists a st', m st = Ok a st' /\ k a st' = Ok b st''.
Proof. unfold bind. destruct (m st) as [a st'|e]; [eauto|discriminate]. Qed.

Lemma setdefault_lookup (d : NamesDict) (c : string) :
  (match d !! c with Some _ => d | None => <[c := max_values d + 1]> d end) !! c =
  Some (match d !! c with Some v => v | None => max_values d + 1 end).
Proof. destruct (d !! c) eqn:Ed; [exact Ed|apply lookup_insert_eq]. Qed.

Section AdvanceCompose.
Context `{Hashing} `{Schema}.

Lemma claim_info_from_output_pure o t n h st ci st1 :
  claim_info_from_output o t n h st = Ok ci st1 -> st1 = st.
Proof.
  intros E. symmetry.
  exact (claim_info_from_output_keeps (@eq State) (fun _ => eq_refl)
           (fun a b c => @eq_trans _ a b c) o t n h st ci st1 E).
Qed.

Lemma checksig_pure n v a st r st1 : _checksig n v a st = Ok r st1 -> st1 = st.
Proof.
  intros E. symmetry.
  exact (checksig_keeps (@eq State) (fun _ => eq_refl) (fun a b c => @eq_trans _ a b c)
           n v a st r st1 E).
Qed.

Lemma when_cert_put_signed c cid st st2 :
  when_cert c (fun x => put_claim_id_signed_by_cert_id x cid) st = Ok tt st2 ->
  st2 = st \/ exists X, st2 = set_cert_cache X st.
Proof.
  unfold when_cert. destruct c as [x|]; [destruct (truthy (Some x))|];
    intros E; try (injection E as <-; left; reflexivity).
  right. unfold put_claim_id_signed_by_cert_id, bind, gets, modify in E. injection E as <-.
  eexists. reflexivity.
Qed.

(** A name claim that [advance_claim_name_transaction] accepts is
    readable everywhere at once: [get_claim_info] returns the new
    ClaimInfo (built from the output, the txid, nout and height), the
    claim is listed under its name (with the next sequence number when it
    is new there), the outpoint [(txid, nout)] maps to the claim id, and
    the undo record is [(claim_id, None)]. *)
Theorem name_claim_advance_indexes (o : TxOutput) (h : Z) (txid : string) (nout : Z)
    (st : State) (u : UndoEntry) (st' : State) :
  advance_claim_name_transaction o h txid nout st = Ok u st' ->
  fst u <> EmptyString ->
  snd u = None /\
  exists ci d d', get_claim_info (fst u) st' = Ok (Some ci) st' /\
    ci_txid ci = txid /\ ci_nout ci = nout /\ ci_height ci = h /\ ci_amount ci = out_value o /\
    get_claims_for_name (ci_name ci) st = Ok d st /\
    get_claims_for_name (ci_name ci) st' = Ok d' st' /\
    d' !! fst u = Some (match d !! fst u with Some v => v | None => max_values d + 1 end) /\
    get_claim_id_from_outpoint txid nout st' = Ok (Some (fst u)) st'.
Proof.
  intros E Hne. unfold advance_claim_name_transaction in E.
  destruct (claim_id_hash txid nout) as [cid|] eqn:Hc; [|discriminate E].
  unfold claim_id_hash in Hc. destruct (pack_u32_be nout) as [p|] eqn:Hp; [|discriminate Hc].
  unfold bind at 1 in E. destruct (claim_info_from_output o txid nout h st) as [ci st1|] eqn:Eci;
    [|discriminate E].
  pose proof (claim_info_from_output_pure _ _ _ _ _ _ _ Eci) as ->.
  assert (Hci : ci_txid ci = txid /\ ci_nout ci = nout /\ ci_height ci = h /\
                ci_amount ci = out_value o).
  { unfold claim_info_from_output in Eci. destruct (out_claim o); try discriminate Eci;
      (destruct (_ && _); [|discriminate Eci]);
      unfold bind in Eci; destruct (_checksig _ _ _ st); try discriminate Eci;
      injection Eci as <- _; simpl; repeat split. }
  unfold bind at 1 in E.
  destruct (when_cert (ci_cert_id ci) (fun c => put_claim_id_signed_by_cert_id c cid) st)
    as [[] st2|] eqn:Ew; [|discriminate E].
  assert (Hst2 : claim_cache st2 = claim_cache st /\ claims_for_name_cache st2 = claims_for_name_cache st /\
                 names_db st2 = names_db st /\
                 outpoint_to_claim_id_cache st2 = outpoint_to_claim_id_cache st /\
                 outpoint_to_claim_id_db st2 = outpoint_to_claim_id_db st).
  { destruct (when_cert_put_signed _ _ _ _ Ew) as [->|[X ->]]; repeat split. }
  destruct Hst2 as (E1 & E2 & E3 & E4 & E5).
  unfold put_claim_info, put_claim_for_name, put_claim_id_for_outpoint, outpoint_key, bind,
    modify, ret in E. rewrite Hp in E. cbn in E. injection E as <- <-.
  split; [reflexivity|]. simpl fst in *.
  exists ci, (match claims_for_name_cache st !! ci_name ci with
           | Some claims => claims
           | None => match names_db st !! ci_name ci with Some d => d | None => ∅ end
           end).
  eexists. split; [|split; [apply Hci|split; [apply Hci|split; [apply Hci|split; [apply Hci|]]]]].
  { rewrite get_claim_info_value. simpl. rewrite lookup_insert_eq. reflexivity. }
  split; [reflexivity|]. split.
  { rewrite get_claims_for_name_value. simpl. rewrite lookup_insert_eq. reflexivity. }
  split.
  - rewrite E2, E3. apply setdefault_lookup.
  - unfold get_claim_id_from_outpoint, outpoint_key, bind, gets, ret. rewrite Hp. simpl.
    rewrite lookup_insert_eq. simpl. destruct (String.eqb_spec cid EmptyString); [congruence|].
    reflexivity.
Qed.

Lemma when_cert_backup_sig c n v a cid st st2 :
  when_cert c (fun _ =>
    cert_id <- _checksig n v a ;;
    match cert_id with
    | None => raise TypeError
    | Some c => put_claim_id_signed_by_cert_id c cid
    end) st = Ok tt st2 ->
  st2 = st \/ exists X, st2 = set_cert_cache X st.
Proof.
  unfold when_cert. destruct c as [x|]; [destruct (truthy (Some x))|];
    intros E; try (injection E as <-; left; reflexivity).
  apply bind_ok in E as (r & s1 & Es & E). apply checksig_pure in Es as ->.
  destruct r as [c|]; [|discriminate E].
  right. unfold put_claim_id_signed_by_cert_id, bind, gets, modify in E. injection E as <-.
  eexists. reflexivity.
Qed.

(** A successful rollback step with undo information [Some undo] (an
    update or an abandon being reverted) makes the claim readable as it
    was: [get_claim_info] returns [undo], the claim is listed under
    [undo]'s name, and [undo]'s outpoint maps back to the claim id. *)
Theorem backup_restores_undo_info (cid : string) (undo : ClaimInfo) (st st' : State) :
  backup_from_undo_info cid (Some undo) st = Ok tt st' ->
  cid <> EmptyString ->
  get_claim_info cid st' = Ok (Some undo) st' /\
  get_claim_id_from_outpoint (ci_txid undo) (ci_nout undo) st' = Ok (Some cid) st' /\
  exists d', get_claims_for_name (ci_name undo) st' = Ok d' st' /\ d' !! cid <> None.
Proof.
  intros E Hne. unfold backup_from_undo_info in E.
  apply bind_ok in E as (cur & s0 & _ & E).
  apply bind_ok in E as ([] & s1 & _ & E). cbv beta iota in E.
  apply bind_ok in E as ([] & s2 & E2 & E). injection E2 as <-.
  apply bind_ok in E as ([] & s3 & E3 & E).
  assert (Hs3 : claim_cache s3 = <[cid := Some undo]> (claim_cache s1) /\
                claims_for_name_cache s3 = claims_for_name_cache s1 /\ names_db s3 = names_db s1 /\
                outpoint_to_claim_id_cache s3 = outpoint_to_claim_id_cache s1).
  { destruct (when_cert_backup_sig _ _ _ _ _ _ _ E3) as [->|[X ->]]; repeat split. }
  destruct Hs3 as (C1 & C2 & C3 & C4).
  apply bind_ok in E as ([] & s4 & E4 & E).
  unfold put_claim_for_name, bind, gets, modify in E4. injection E4 as <-.
  unfold put_claim_id_for_outpoint, outpoint_key, bind, modify, ret in E.
  destruct (pack_u32_be (ci_nout undo)) as [p|] eqn:Hp; [|discriminate E]. injection E as <-.
  split; [|split].
  - rewrite get_claim_info_value. simpl. rewrite C1, lookup_insert_eq. reflexivity.
  - unfold get_claim_id_from_outpoint, outpoint_key, bind, gets, ret. rewrite Hp. simpl.
    rewrite lookup_insert_eq. simpl. destruct (String.eqb_spec cid EmptyString); [congruence|].
    reflexivity.
  - eexists. split; [rewrite get_claims_for_name_value; simpl; rewrite lookup_insert_eq; reflexivity|].
    rewrite setdefault_lookup. discriminate.
Qed.

End AdvanceCompose.

(** ** Abandons: queued by a spend, completed by the flush *)

Lemma set_outpoint_cache_twice X Y st :
  set_outpoint_cache X (set_outpoint_cache Y st) = set_outpoint_cache X st.
Proof. destruct st; reflexivity. Qed.

Section Abandons.
Context `{Hashing} `{Schema}.

Lemma clear_outpoints_spec (os : list (string * Z)) (st : State) :
  Forall (fun o => 0 <= snd o < 2 ^ 32) os ->
  exists X, clear_outpoints os st = Ok tt (set_outpoint_cache X st) /\
    (forall k, X !! k = outpoint_to_claim_id_cache st !! k \/ X !! k = Some None) /\
    (forall t i p, (t, i) ∈ os -> pack_u32_be i = Some p -> X !! String.append t p = Some None).
Proof.
  revert st. induction os as [|[t i] os IH]; intros st Hall; simpl.
  - exists (outpoint_to_claim_id_cache st). split; [destruct st; reflexivity|].
    split; [auto|]. intros t i p Hin. apply elem_of_nil in Hin. contradiction.
  - inversion Hall as [|? ? Hi Hrest]; subst. simpl in Hi.
    destruct (pack_u32_be_in_range i Hi) as [p Hp].
    set (st1 := set_outpoint_cache (<[String.append t p := None]> (outpoint_to_claim_id_cache st)) st).
    destruct (IH st1 Hrest) as (X & EX & Hk & Hos).
    exists X. split.
    + unfold put_claim_id_for_outpoint, outpoint_key, bind, modify, ret. rewrite Hp.
      fold st1. rewrite EX. unfold st1. rewrite set_outpoint_cache_twice. reflexivity.
    + split.
      * intros k. destruct (Hk k) as [Ek|Ek]; [|right; exact Ek]. rewrite Ek. unfold st1. simpl.
        destruct (decide (k = String.append t p)) as [->|Hne];
          [right; apply lookup_insert_eq|left; apply lookup_insert_ne; congruence].
      * intros t' i' p' Hin Hp'. apply elem_of_cons in Hin as [Heq|Hin].
        -- injection Heq as -> ->. rewrite Hp in Hp'. injection Hp' as <-.
           destruct (Hk (String.append t p)) as [Ek|Ek]; [|exact Ek].
           rewrite Ek. unfold st1. simpl. apply lookup_insert_eq.
        -- exact (Hos t' i' p' Hin Hp').
Qed.

Lemma when_cert_remove_from_cert c cid st :
  exists st2, when_cert c (fun x => remove_claim_from_certificate_claims x cid) st = Ok tt st2 /\
    (st2 = st \/ exists X, st2 = set_cert_cache X st).
Proof.
  unfold when_cert. destruct c as [x|]; [destruct (truthy (Some x))|];
    try (eexists; split; [reflexivity|left; reflexivity]).
  unfold remove_claim_from_certificate_claims, get_signed_claim_ids_by_cert_id, bind, gets, modify.
  eexists. split; [reflexivity|]. right. eexists. reflexivity.
Qed.

(** A transaction without claim outputs that spends the outpoint of a
    claim abandons the claim: the undo record is the claim id with its
    current ClaimInfo, and the outpoint is queued under the claim id in
    the pending abandons. *)
Theorem spending_claim_outpoint_queues_abandon (tx : Tx) (txid : string) (h : Z)
    (txin : TxInput) (c : string) (ci : option ClaimInfo) (st : State) :
  has_claims tx = false -> tx_inputs tx = [txin] ->
  get_claim_id_from_outpoint (prev_hash txin) (prev_idx txin) st = Ok (Some c) st ->
  c <> EmptyString ->
  get_claim_info c st = Ok ci st ->
  exists st', advance_claim_tx tx txid h st = Ok [(c, ci)] st' /\
    pending_get c (pending_abandons st') =
      Some (match pending_get c (pending_abandons st) with Some os => os | None => [] end
            ++ [(prev_hash txin, prev_idx txin)]) /\
    st' = set_pending (pending_abandons st') st.
Proof.
  intros Hc Hin Hget Hne Hci.
  assert (Ht : truthy (Some c) = true)
    by (simpl; destruct (String.eqb_spec c EmptyString); [congruence|reflexivity]).
  destruct (proj2 (abandon_spent_spec _ _ st _ Hget) c eq_refl Ht)
    as (st1 & Ea & Hp & _ & Est1).
  exists st1. split; [|split; [exact Hp|exact Est1]].
  unfold advance_claim_tx. rewrite Hc, Hin. unfold bind at 1. unfold ret at 1. cbn [snd fst].
  simpl abandon_inputs. destruct (decide (txin ∈ [])) as [Hx|_]; [apply elem_of_nil in Hx; contradiction|].
  unfold bind. rewrite Ea.
  assert (Hci1 : get_claim_info c st1 = Ok ci st1).
  { rewrite get_claim_info_value in *. injection Hci as Hci. rewrite <- Hci, Est1. reflexivity. }
  rewrite Hci1. reflexivity.
Qed.

(** The flush completes a pending abandon: the claim is deleted from the
    claims store, dropped from its name's list, its certificate list is
    emptied, and every queued outpoint of it reads [None] afterwards. *)
Theorem flush_completes_abandon (st : State) (c : string) (ci : ClaimInfo)
    (os : list (string * Z)) (d : NamesDict) :
  pending_abandons st = [(c, os)] ->
  Forall (fun o => 0 <= snd o < 2 ^ 32) os ->
  get_claim_info c st = Ok (Some ci) st ->
  get_claims_for_name (ci_name ci) st = Ok d st -> d !! c <> None ->
  exists st', flush_claims st = Ok tt st' /\
    claims_db st' !! c = None /\
    get_claim_info c st' = Ok None st' /\
    (exists d', get_claims_for_name (ci_name ci) st' = Ok d' st' /\ d' !! c = None) /\
    get_signed_claim_ids_by_cert_id c st' = Ok [] st' /\
    (forall t i, (t, i) ∈ os -> get_claim_id_from_outpoint t i st' = Ok None st').
Proof.
  intros Hp Hos Hci Hd Hdc.
  destruct (d !! c) as [k|] eqn:Ek; [|congruence].
  (* remove_claim_for_name *)
  set (d' := fmap (fun number => if k <? number then number - 1 else number) (delete c d)).
  set (s1 := set_names_cache (<[ci_name ci := d']> (claims_for_name_cache st)) st).
  assert (E1 : remove_claim_for_name (ci_name ci) c st = Ok tt s1).
  { unfold remove_claim_for_name, bind. rewrite Hd, Ek. reflexivity. }
  destruct (when_cert_remove_from_cert (ci_cert_id ci) c s1) as (s2 & E2 & Hs2).
  set (s3 := set_cert_cache (<[c := []]> (claims_signed_by_cert_cache s2)) s2).
  set (s4 := set_claim_cache (<[c := None]> (claim_cache s3)) s3).
  destruct (clear_outpoints_spec os s4 Hos) as (X & E5 & HXk & HXos).
  exists (flushed (set_outpoint_cache X s4)). split.
  { unfold flush_claims. rewrite (bind_Ok (gets pending_abandons) _ st (pending_abandons st) st eq_refl).
    cbv beta. rewrite Hp. simpl drain_abandons.
    rewrite (bind_Ok _ _ st tt (set_outpoint_cache X s4)); [reflexivity|].
    rewrite (bind_Ok _ _ _ _ _ Hci). cbv beta iota.
    rewrite (bind_Ok _ _ _ _ _ E1). cbv beta.
    rewrite (bind_Ok _ _ _ _ _ E2). cbv beta.
    rewrite (bind_Ok (remove_certificate c) _ s2 tt s3 eq_refl). cbv beta.
    rewrite (bind_Ok (modify (fun st0 => set_claim_cache (<[c:=None]> (claim_cache st0)) st0))
               _ s3 tt s4 eq_refl). cbv beta.
    rewrite (bind_Ok _ _ _ _ _ E5). reflexivity. }
  assert (Hs2' : claim_cache s2 = claim_cache st /\
                 claims_for_name_cache s2 = <[ci_name ci := d']> (claims_for_name_cache st)).
  { destruct Hs2 as [->|[Y ->]]; split; reflexivity. }
  destruct Hs2' as [C1 C2].
  split; [|split; [|split; [|split]]].
  - simpl. rewrite write_claims_lookup. simpl. rewrite lookup_insert_eq. reflexivity.
  - rewrite get_claim_info_value. simpl. rewrite lookup_empty, write_claims_lookup. simpl.
    rewrite lookup_insert_eq. reflexivity.
  - rewrite get_claims_for_name_value. simpl. rewrite lookup_empty, write_names_lookup. simpl.
    rewrite C2, lookup_insert_eq.
    assert (Hd'c : d' !! c = None) by (unfold d'; rewrite lookup_fmap, lookup_delete_eq; reflexivity).
    destruct (decide (d' = ∅)) as [He|He].
    + exists ∅. split; [reflexivity|apply lookup_empty].
    + exists d'. split; [reflexivity|exact Hd'c].
  - unfold get_signed_claim_ids_by_cert_id, gets. simpl. rewrite lookup_empty, write_certs_lookup.
    simpl. rewrite lookup_insert_eq. reflexivity.
  - intros t i Hti.
    assert (Hi : 0 <= i < 2 ^ 32) by (rewrite Forall_forall in Hos; exact (Hos _ Hti)).
    destruct (pack_u32_be_in_range i Hi) as [p Hpk].
    unfold get_claim_id_from_outpoint, outpoint_key, bind, gets, ret. rewrite Hpk. simpl.
    rewrite lookup_empty. simpl. rewrite write_outpoints_lookup. simpl.
    rewrite (HXos t i p Hti Hpk). reflexivity.
Qed.

End Abandons.

(** ** The RPC session: hexadecimal strings *)

Lemma byte_of_N_of_ascii (a : ascii) : byte_of (Z.of_N (N_of_ascii a)) = a.
Proof. unfold byte_of. rewrite N2Z.id. apply ascii_N_embedding. Qed.

Lemma hex_digit_spec (d : Z) :
  0 <= d < 16 ->
  hex_value (hex_digit d) = Some d /\ py_isspace (hex_digit d) = false /\ (hex_digit d <? 128) = true.
Proof.
  intros Hd.
  assert (d = 0 \/ d = 1 \/ d = 2 \/ d = 3 \/ d = 4 \/ d = 5 \/ d = 6 \/ d = 7 \/ d = 8 \/
          d = 9 \/ d = 10 \/ d = 11 \/ d = 12 \/ d = 13 \/ d = 14 \/ d = 15) as Hc by lia.
  repeat destruct Hc as [->|Hc]; [..|subst]; repeat split.
Qed.

Lemma byte_digits (a : ascii) :
  let n := Z.of_N (N_of_ascii a) in
  0 <= n / 16 < 16 /\ 0 <= n mod 16 < 16 /\ byte_of (n / 16 * 16 + n mod 16) = a.
Proof.
  intros n. pose proof (N_ascii_bounded a) as Hb.
  assert (Hn : 0 <= n < 256) by (unfold n; lia).
  split; [split; [apply Z.div_pos; lia|apply Z.div_lt_upper_bound; lia]|].
  split; [apply Z.mod_pos_bound; lia|].
  rewrite Z.mul_comm, <- Z.div_mod by lia. apply byte_of_N_of_ascii.
Qed.

Lemma hexlify_cons (a : ascii) (r : string) :
  hexlify (String a r) =
  hex_digit (Z.of_N (N_of_ascii a) / 16) :: hex_digit (Z.of_N (N_of_ascii a) mod 16) :: hexlify r.
Proof. reflexivity. Qed.

Lemma fromhex_hexlify (b : string) : fromhex (hexlify b) = Some b.
Proof.
  induction b as [|a r IH]; [reflexivity|]. rewrite hexlify_cons.
  destruct (byte_digits a) as (H1 & H2 & H3).
  destruct (hex_digit_spec _ H1) as (V1 & S1 & _). destruct (hex_digit_spec _ H2) as (V2 & _ & _).
  cbn [fromhex]. rewrite S1, V1, V2, IH, H3. reflexivity.
Qed.

Lemma a2b_hex_hexlify (b : string) : a2b_hex_digits (hexlify b) = Some b.
Proof.
  induction b as [|a r IH]; [reflexivity|]. rewrite hexlify_cons.
  destruct (byte_digits a) as (H1 & H2 & H3).
  destruct (hex_digit_spec _ H1) as (V1 & _ & _). destruct (hex_digit_spec _ H2) as (V2 & _ & _).
  cbn [a2b_hex_digits]. rewrite V1, V2, IH, H3. reflexivity.
Qed.

Lemma hexlify_ascii (b : string) : forallb (fun c => c <? 128) (hexlify b) = true.
Proof.
  induction b as [|a r IH]; [reflexivity|]. rewrite hexlify_cons.
  destruct (byte_digits a) as (H1 & H2 & _).
  destruct (hex_digit_spec _ H1) as (_ & _ & A1). destruct (hex_digit_spec _ H2) as (_ & _ & A2).
  cbn [forallb]. rewrite A1, A2, IH. reflexivity.
Qed.

Lemma string_append_empty_r (s : string) : String.append s EmptyString = s.
Proof. induction s as [|a s IH]; [reflexivity|]. exact (f_equal (String a) IH). Qed.

Lemma string_append_assoc (s t u : string) :
  String.append s (String.append t u) = String.append (String.append s t) u.
Proof. induction s as [|a s IH]; [reflexivity|]. exact (f_equal (String a) IH). Qed.

Lemma string_rev_app (s t : string) :
  string_rev (String.append s t) = String.append (string_rev t) (string_rev s).
Proof.
  induction s as [|a s IH]; simpl.
  - rewrite string_append_empty_r. reflexivity.
  - rewrite IH, string_append_assoc. reflexivity.
Qed.

Lemma string_rev_involutive (s : string) : string_rev (string_rev s) = s.
Proof.
  induction s as [|a s IH]; [reflexivity|]. simpl. rewrite string_rev_app, IH. reflexivity.
Qed.

(** [hexlify] and its inverses: [bytes.fromhex] and [binascii.unhexlify]
    give the bytes back, and the RPC argument checks accept the hex of a
    byte string exactly when it has 32 bytes ([assert_tx_hash]) or 20
    bytes ([assert_claim_id]). *)
Theorem hexlify_round_trip (b : string) :
  fromhex (hexlify b) = Some b /\
  unhexlify (JStr (hexlify b)) = inl b /\
  (assert_tx_hash (JStr (hexlify b)) = inl tt <-> String.length b = 32%nat) /\
  (assert_claim_id (JStr (hexlify b)) = inl tt <-> String.length b = 20%nat).
Proof.
  split; [apply fromhex_hexlify|]. split.
  { unfold unhexlify. rewrite hexlify_ascii, a2b_hex_hexlify. reflexivity. }
  unfold assert_tx_hash, assert_claim_id, assert_hash_length. rewrite fromhex_hexlify.
  split; split; try (intros ->; reflexivity).
  - destruct (Nat.eqb_spec (String.length b) 32) as [E|E]; [intros _; exact E|discriminate].
  - destruct (Nat.eqb_spec (String.length b) 20) as [E|E]; [intros _; exact E|discriminate].
Qed.

(** ** The RPC session: dicts and replies *)

Lemma sbind_inl {A B} (m : SResult A) (k : A -> SResult B) (b : B) :
  sbind m k = inl b -> exists a, m = inl a /\ k a = inl b.
Proof. destruct m as [a|e]; simpl; [eauto|discriminate]. Qed.

Lemma existsb_key_lookup (k : PyStr) (kv : list (PyStr * Json)) :
  existsb (fun e => bool_decide (fst e = k)) kv =
  match assoc_lookup k kv with Some _ => true | None => false end.
Proof.
  induction kv as [|[k' v] r IH]; [reflexivity|]. simpl.
  destruct (bool_decide (k' = k)); [reflexivity|exact IH].
Qed.

Lemma assoc_lookup_map_set (k k' : PyStr) (v : Json) (kv : list (PyStr * Json)) :
  assoc_lookup k' (map (fun e => if bool_decide (fst e = k) then (k, v) else e) kv) =
  if bool_decide (k = k') then (match assoc_lookup k kv with Some _ => Some v | None => None end)
  else assoc_lookup k' kv.
Proof.
  destruct (decide (k = k')) as [<-|Hne].
  - rewrite bool_decide_eq_true_2 by reflexivity.
    induction kv as [|[k1 v1] r IH]; simpl; [reflexivity|].
    destruct (bool_decide_reflect (k1 = k)) as [->|Hne]; simpl.
    + rewrite bool_decide_eq_true_2 by reflexivity. reflexivity.
    + rewrite bool_decide_eq_false_2 by exact Hne. exact IH.
  - rewrite (bool_decide_eq_false_2 _ Hne).
    induction kv as [|[k1 v1] r IH]; simpl; [reflexivity|].
    destruct (bool_decide_reflect (k1 = k)) as [->|Hne1]; simpl.
    + rewrite !(bool_decide_eq_false_2 _ Hne). exact IH.
    + destruct (bool_decide (k1 = k')); [reflexivity|exact IH].
Qed.

Lemma assoc_lookup_app (k : PyStr) (kv kv' : list (PyStr * Json)) :
  assoc_lookup k (kv ++ kv') =
  match assoc_lookup k kv with Some x => Some x | None => assoc_lookup k kv' end.
Proof.
  induction kv as [|[k1 v1] r IH]; simpl; [reflexivity|].
  destruct (bool_decide (k1 = k)); [reflexivity|exact IH].
Qed.

Lemma assoc_lookup_set_eq (k : PyStr) (v : Json) (kv : list (PyStr * Json)) :
  assoc_lookup k (assoc_set k v kv) = Some v.
Proof.
  unfold assoc_set. rewrite existsb_key_lookup.
  destruct (assoc_lookup k kv) eqn:E.
  - rewrite assoc_lookup_map_set, bool_decide_eq_true_2, E by reflexivity. reflexivity.
  - rewrite assoc_lookup_app, E. simpl. rewrite bool_decide_eq_true_2 by reflexivity. reflexivity.
Qed.

Lemma assoc_lookup_set_ne (k k' : PyStr) (v : Json) (kv : list (PyStr * Json)) :
  k <> k' -> assoc_lookup k' (assoc_set k v kv) = assoc_lookup k' kv.
Proof.
  intros Hne. unfold assoc_set. destruct (existsb _ kv).
  - rewrite assoc_lookup_map_set, bool_decide_eq_false_2 by exact Hne. reflexivity.
  - rewrite assoc_lookup_app. destruct (assoc_lookup k' kv); [reflexivity|]. simpl.
    rewrite bool_decide_eq_false_2 by exact Hne. reflexivity.
Qed.

Lemma assoc_lookup_del (k k' : PyStr) (kv : list (PyStr * Json)) :
  assoc_lookup k' (assoc_del k kv) = if bool_decide (k = k') then None else assoc_lookup k' kv.
Proof.
  unfold assoc_del. destruct (decide (k = k')) as [<-|Hne].
  - rewrite bool_decide_eq_true_2 by reflexivity.
    induction kv as [|[k1 v1] r IH]; simpl; [reflexivity|].
    destruct (bool_decide_reflect (k1 = k)) as [->|Hne]; simpl; [exact IH|].
    rewrite bool_decide_eq_false_2 by exact Hne. exact IH.
  - rewrite (bool_decide_eq_false_2 _ Hne).
    induction kv as [|[k1 v1] r IH]; simpl; [reflexivity|].
    destruct (bool_decide_reflect (k1 = k)) as [->|Hne1]; simpl.
    + rewrite (bool_decide_eq_false_2 _ Hne). exact IH.
    + destruct (bool_decide (k1 = k')); [reflexivity|exact IH].
Qed.

Lemma map_err_forall2 {A B} (f : A -> SResult B) (l : list A) (l' : list B) :
  map_err f l = inl l' -> Forall2 (fun x y => f x = inl y) l l'.
Proof.
  revert l'. induction l as [|x r IH]; simpl; intros l' E.
  - injection E as <-. constructor.
  - apply sbind_inl in E as (y & Ey & E). apply sbind_inl in E as (ys & Eys & E).
    injection E as <-. constructor; [exact Ey|apply IH, Eys].
Qed.

Ltac keys_ne := let E := fresh in intros E; vm_compute in E; congruence.

Ltac peel E := repeat (let a := fresh "a" in let Ea := fresh "Ea" in apply sbind_inl in E as (a & Ea & E)).

Lemma unhexlify_hexlify (b : string) : unhexlify (JStr (hexlify b)) = inl b.
Proof. unfold unhexlify. rewrite hexlify_ascii, a2b_hex_hexlify. reflexivity. Qed.

Lemma json_truthy_int (z : Z) : z <> 0 -> json_truthy (JInt z) = true.
Proof. intros Hz. simpl. apply negb_true_iff, Z.eqb_neq, Hz. Qed.

Lemma get_or_first (kv : list (PyStr * Json)) (k k2 : PyStr) (v : Json) :
  assoc_lookup k kv = Some v -> json_truthy v = true -> get_or (JObj kv) k k2 = inl v.
Proof. intros E T. unfold get_or, json_get. rewrite E. simpl. rewrite T. reflexivity. Qed.

Lemma get_or_second (kv : list (PyStr * Json)) (k k2 : PyStr) (v : Json) :
  match assoc_lookup k kv with Some v => json_truthy v | None => false end = false ->
  assoc_lookup k2 kv = Some v -> get_or (JObj kv) k k2 = inl v.
Proof.
  intros F E. unfold get_or, json_get, getitem.
  destruct (assoc_lookup k kv); simpl; rewrite ?F, E; reflexivity.
Qed.

Ltac inl_subst := repeat match goal with Hq : inl _ = inl _ |- _ => injection Hq as Hq; subst end.

Lemma assoc_lookup_del_eq (k : PyStr) (kv : list (PyStr * Json)) :
  assoc_lookup k (assoc_del k kv) = None.
Proof. rewrite assoc_lookup_del, bool_decide_eq_true_2 by reflexivity. reflexivity. Qed.

Lemma assoc_lookup_del_ne (k k' : PyStr) (kv : list (PyStr * Json)) :
  k <> k' -> assoc_lookup k' (assoc_del k kv) = assoc_lookup k' kv.
Proof. intros Hne. rewrite assoc_lookup_del, bool_decide_eq_false_2 by exact Hne. reflexivity. Qed.

Lemma getitem_obj (kv : list (PyStr * Json)) (k : PyStr) (v : Json) :
  getitem (JObj kv) k = inl v -> assoc_lookup k kv = Some v.
Proof. unfold getitem. destruct (assoc_lookup k kv); [congruence|discriminate]. Qed.

Lemma setitem_inl (j : Json) (k : PyStr) (v j' : Json) :
  setitem j k v = inl j' -> exists kv, j = JObj kv /\ j' = JObj (assoc_set k v kv).
Proof. destruct j; try discriminate. injection 1 as <-. eauto. Qed.

Lemma delitem_inl (j : Json) (k : PyStr) (j' : Json) :
  delitem j k = inl j' ->
  exists kv, j = JObj kv /\ assoc_lookup k kv <> None /\ j' = JObj (assoc_del k kv).
Proof.
  destruct j; try discriminate. simpl. destruct (assoc_lookup k kv) eqn:E; [|discriminate].
  injection 1 as <-. exists kv. rewrite E. split; [reflexivity|split; [discriminate|reflexivity]].
Qed.

Section SessionTheorems.
Context `{Hashing} `{Schema} `{Codec}.

(** [transaction_get_height]: an argument that is not the hex of 32 bytes
    is refused with an RPC error before the daemon's reply is looked at;
    otherwise a reply with 'hex' and 'confirmations' gives
    [db_height - confirmations], a reply with 'hex' only (an unconfirmed
    transaction) gives -1, and an empty or missing reply, or one without
    'hex', gives None. *)
Theorem transaction_get_height_result (db_height : Z) (tx_hash info : Json) :
  (forall e, assert_tx_hash tx_hash = inr e -> transaction_get_height db_height tx_hash info = inr e) /\
  (assert_tx_hash tx_hash = inl tt ->
   (json_truthy info = false -> transaction_get_height db_height tx_hash info = inl JNull) /\
   (forall kv, info = JObj kv ->
      (assoc_lookup (pystr "hex") kv = None ->
         transaction_get_height db_height tx_hash info = inl JNull) /\
      (assoc_lookup (pystr "hex") kv <> None -> assoc_lookup (pystr "confirmations") kv = None ->
         transaction_get_height db_height tx_hash info = inl (JInt (-1))) /\
      (forall c, assoc_lookup (pystr "hex") kv <> None ->
         assoc_lookup (pystr "confirmations") kv = Some (JInt c) ->
         transaction_get_height db_height tx_hash info = inl (JInt (db_height - c))))).
Proof.
  unfold transaction_get_height. split; [intros e ->; reflexivity|]. intros ->. cbn [sbind].
  split; [intros ->; reflexivity|]. intros kv ->.
  unfold json_contains. rewrite !existsb_key_lookup. cbn [sbind].
  split; [|split].
  - intros ->. destruct (json_truthy (JObj kv)); reflexivity.
  - intros Hh Hc. destruct (assoc_lookup (pystr "hex") kv) eqn:Eh; [|congruence].
    destruct kv as [|e r]; [discriminate Eh|]. rewrite Hc. reflexivity.
  - intros c Hh Hc. destruct (assoc_lookup (pystr "hex") kv) eqn:Eh; [|congruence].
    destruct kv as [|e r]; [discriminate Eh|]. rewrite Hc. cbn [sbind json_truthy].
    unfold getitem. rewrite Hc. reflexivity.
Qed.

(** [format_claim_from_daemon]: the claim id of the daemon is the hex of
    the reversed raw claim id.  A claim the block processor does not know
    raises AttributeError; a known claim missing from the index of its
    name raises KeyError; a formatted claim carries the index's sequence
    number, the decoded address, the name and the daemon's claim id. *)
Theorem format_claim_from_daemon_index (st : State) (db_height : Z) (kv : list (PyStr * Json))
    (name : Json) (n : PyStr) (raw : string) :
  (json_truthy name = true /\ name = JStr n \/
   json_truthy name = false /\ assoc_lookup (pystr "name") kv = Some (JStr n)) ->
  assoc_lookup (pystr "claimId") kv = Some (JStr (hexlify (string_rev raw))) ->
  (get_claim_info raw st = Ok None st ->
     format_claim_from_daemon st db_height (JObj kv) name = inr SAttributeError) /\
  (forall ci a d,
     get_claim_info raw st = Ok (Some ci) st ->
     utf8_decode (ci_address ci) = Some a ->
     forallb (fun c => c <? 256) n = true ->
     get_claims_for_name (string_of_list_ascii (map byte_of n)) st = Ok d st ->
     (d !! raw = None -> format_claim_from_daemon st db_height (JObj kv) name = inr SKeyError) /\
     (forall out, format_claim_from_daemon st db_height (JObj kv) name = inl out ->
        exists k, d !! raw = Some k /\
          json_get out (pystr "claim_sequence") = inl (JInt k) /\
          json_get out (pystr "address") = inl (JStr a) /\
          json_get out (pystr "name") = inl (JStr n) /\
          json_get out (pystr "claim_id") = inl (JStr (hexlify (string_rev raw))))).
Proof.
  intros Hn Hid.
  assert (En : (if json_truthy name then inl name else getitem (JObj kv) (pystr "name"))
               = inl (JStr n) :> SResult Json).
  { destruct Hn as [[-> ->]|[-> E]]; [reflexivity|]. unfold getitem. rewrite E. reflexivity. }
  assert (Eid : getitem (JObj kv) (pystr "claimId") = inl (JStr (hexlify (string_rev raw))))
    by (unfold getitem; rewrite Hid; reflexivity).
  unfold format_claim_from_daemon. rewrite En. cbn [sbind].
  rewrite Eid. cbn [sbind]. rewrite unhexlify_hexlify. cbn [sbind].
  rewrite string_rev_involutive.
  split.
  - intros Hci. unfold bp_read at 1. rewrite Hci. reflexivity.
  - intros ci a d Hci Ha Hn256 Hd.
    assert (Eci : bp_read (get_claim_info raw) st = inl (Some ci)) by (unfold bp_read; rewrite Hci; reflexivity).
    rewrite Eci. cbn [sbind]. rewrite Ha. cbn [sbind].
    assert (El : latin1_encode (JStr n) = inl (string_of_list_ascii (map byte_of n)))
      by (unfold latin1_encode; rewrite Hn256; reflexivity).
    rewrite El. cbn [sbind].
    assert (Ed : bp_read (get_claims_for_name (string_of_list_ascii (map byte_of n))) st = inl d)
      by (unfold bp_read; rewrite Hd; reflexivity).
    rewrite Ed. cbn [sbind]. split.
    + intros ->. reflexivity.
    + intros out E. destruct (d !! raw) as [k|] eqn:Ek; [|discriminate E]. cbn [sbind] in E.
      peel E. injection E as <-. exists k. split; [reflexivity|].

      split; [reflexivity|]. split; [reflexivity|]. split; reflexivity.
Qed.

(** [format_claim_from_daemon]: the height reported is the daemon's
    'height' when it is non-zero and 'nHeight' otherwise, the depth is
    [db_height] minus that height, and the amount is 'amount' when it is
    non-zero and 'nAmount' otherwise. *)
Theorem format_claim_from_daemon_fallbacks (st : State) (db_height : Z)
    (kv : list (PyStr * Json)) (name out : Json) :
  format_claim_from_daemon st db_height (JObj kv) name = inl out ->
  (forall h, assoc_lookup (pystr "height") kv = Some (JInt h) -> h <> 0 ->
     json_get out (pystr "height") = inl (JInt h) /\
     json_get out (pystr "depth") = inl (JInt (db_height - h))) /\
  (forall h, match assoc_lookup (pystr "height") kv with Some v => json_truthy v | None => false end = false ->
     assoc_lookup (pystr "nHeight") kv = Some (JInt h) ->
     json_get out (pystr "height") = inl (JInt h) /\
     json_get out (pystr "depth") = inl (JInt (db_height - h))) /\
  (forall am, assoc_lookup (pystr "amount") kv = Some (JInt am) -> am <> 0 ->
     json_get out (pystr "amount") = inl (JInt am)) /\
  (forall am, match assoc_lookup (pystr "amount") kv with Some v => json_truthy v | None => false end = false ->
     assoc_lookup (pystr "nAmount") kv = Some (JInt am) ->
     json_get out (pystr "amount") = inl (JInt am)).
Proof.
  unfold format_claim_from_daemon. intros E. peel E. injection E as <-.
  split; [|split; [|split]]; intros x Hx Hy.
  - rewrite (get_or_first _ _ _ _ Hx) in * by (apply json_truthy_int, Hy).
    inl_subst. cbn [py_sub] in *. inl_subst. split; reflexivity.
  - rewrite (get_or_second _ _ _ _ Hx Hy) in *.
    inl_subst. cbn [py_sub] in *. inl_subst. split; reflexivity.
  - rewrite (get_or_first _ _ _ _ Hx) in * by (apply json_truthy_int, Hy).
    inl_subst. reflexivity.
  - rewrite (get_or_second _ _ _ _ Hx Hy) in *. inl_subst. reflexivity.
Qed.

(** [claimtrie_getclaimsforname]: an empty daemon reply gives {}; a reply
    without 'claims' raises KeyError; otherwise the reply's claims are each
    formatted, 'supports without claims' and 'nLastTakeoverHeight' are
    renamed to 'supports_without_claims' and 'last_takeover_height' with
    their values, and every other key keeps its value. *)
Theorem claimtrie_getclaimsforname_reply (st : State) (db_height : Z) (name claims : Json) :
  (json_truthy claims = false -> claimtrie_getclaimsforname st db_height name claims = inl (JObj [])) /\
  (forall kv, claims = JObj kv -> kv <> [] -> assoc_lookup (pystr "claims") kv = None ->
     claimtrie_getclaimsforname st db_height name claims = inr SKeyError) /\
  (forall out, json_truthy claims = true ->
     claimtrie_getclaimsforname st db_height name claims = inl out ->
     exists kv kvo cl l fl, claims = JObj kv /\ out = JObj kvo /\
       assoc_lookup (pystr "claims") kv = Some cl /\ json_iter cl = inl l /\
       Forall2 (fun c f => format_claim_from_daemon st db_height c name = inl f) l fl /\
       assoc_lookup (pystr "claims") kvo = Some (JList fl) /\
       assoc_lookup (pystr "supports_without_claims") kvo =
         assoc_lookup (pystr "supports without claims") kv /\
       assoc_lookup (pystr "last_takeover_height") kvo =
         assoc_lookup (pystr "nLastTakeoverHeight") kv /\
       assoc_lookup (pystr "supports_without_claims") kvo <> None /\
       assoc_lookup (pystr "last_takeover_height") kvo <> None /\
       assoc_lookup (pystr "supports without claims") kvo = None /\
       assoc_lookup (pystr "nLastTakeoverHeight") kvo = None /\
       (forall k, k <> pystr "claims" -> k <> pystr "supports_without_claims" ->
          k <> pystr "last_takeover_height" -> k <> pystr "supports without claims" ->
          k <> pystr "nLastTakeoverHeight" -> assoc_lookup k kvo = assoc_lookup k kv)).
Proof.
  unfold claimtrie_getclaimsforname. split; [|split].
  - intros ->. reflexivity.
  - intros kv -> Hne Hc. destruct kv as [|e r]; [congruence|]. simpl json_truthy. cbn iota.
    unfold getitem at 1. rewrite Hc. reflexivity.
  - intros out T E. rewrite T in E.
    apply sbind_inl in E as (cl & Ecl & E). apply sbind_inl in E as (l & El & E).
    apply sbind_inl in E as (fl & Efl & E). apply sbind_inl in E as (c1 & E1 & E).
    apply sbind_inl in E as (swc & Eswc & E). apply sbind_inl in E as (c2 & E2 & E).
    apply sbind_inl in E as (c3 & E3 & E). apply sbind_inl in E as (tk & Etk & E).
    apply sbind_inl in E as (c4 & E4 & E).
    apply setitem_inl in E1 as (kv & -> & ->). apply getitem_obj in Ecl.
    apply getitem_obj in Eswc. apply setitem_inl in E2 as (kv1 & Ekv1 & ->).
    injection Ekv1 as <-. apply delitem_inl in E3 as (kv2 & Ekv2 & _ & ->).
    injection Ekv2 as <-. apply getitem_obj in Etk. apply setitem_inl in E4 as (kv3 & Ekv3 & ->).
    injection Ekv3 as <-. apply delitem_inl in E as (kv4 & Ekv4 & _ & ->). injection Ekv4 as <-.
    rewrite assoc_lookup_set_ne in Eswc by keys_ne.
    rewrite assoc_lookup_del_ne, assoc_lookup_set_ne, assoc_lookup_set_ne in Etk by keys_ne.
    eexists _, _, cl, l, fl. split; [reflexivity|split; [reflexivity|]].
    split; [exact Ecl|split; [exact El|split; [apply map_err_forall2, Efl|]]].
    split.
    { rewrite assoc_lookup_del_ne, assoc_lookup_set_ne, assoc_lookup_del_ne,
        assoc_lookup_set_ne, assoc_lookup_set_eq by keys_ne. reflexivity. }
    split.
    { rewrite assoc_lookup_del_ne, assoc_lookup_set_ne, assoc_lookup_del_ne,
        assoc_lookup_set_eq, Eswc by keys_ne. reflexivity. }
    split.
    { rewrite assoc_lookup_del_ne, assoc_lookup_set_eq, Etk by keys_ne. reflexivity. }
    split.
    { rewrite assoc_lookup_del_ne, assoc_lookup_set_ne, assoc_lookup_del_ne,
        assoc_lookup_set_eq by keys_ne. discriminate. }
    split.
    { rewrite assoc_lookup_del_ne, assoc_lookup_set_eq by keys_ne. discriminate. }
    split.
    { rewrite assoc_lookup_del_ne, assoc_lookup_set_ne, assoc_lookup_del_eq by keys_ne.
      reflexivity. }
    split.
    { apply assoc_lookup_del_eq. }
    intros k Hk1 Hk2 Hk3 Hk4 Hk5.
    rewrite assoc_lookup_del_ne, assoc_lookup_set_ne, assoc_lookup_del_ne, assoc_lookup_set_ne,
      assoc_lookup_set_ne by congruence. reflexivity.
Qed.

(** [claimtrie_getclaimbyid]: an argument that is not a string, or a
    string that [bytes.fromhex] does not decode to 20 bytes, is refused
    with an RPC error before the daemon's reply is looked at; any string
    that [bytes.fromhex] decodes to 20 bytes (lower or upper case hex,
    whitespace between byte pairs) formats the daemon's claim with the name
    taken from the claim itself, so a claim without 'name' raises KeyError. *)
Theorem claimtrie_getclaimbyid_checks (st : State) (db_height : Z) (claim : Json) :
  (forall j, (forall s, j <> JStr s) ->
     claimtrie_getclaimbyid st db_height j claim =
       inr (SRPCError j (pystr " should be a claim id hash"))) /\
  (forall s, match fromhex s with Some b => String.length b <> 20%nat | None => True end ->
     claimtrie_getclaimbyid st db_height (JStr s) claim =
       inr (SRPCError (JStr s) (pystr " should be a claim id hash"))) /\
  (forall s b, fromhex s = Some b -> String.length b = 20%nat ->
     claimtrie_getclaimbyid st db_height (JStr s) claim =
       format_claim_from_daemon st db_height claim JNull) /\
  (forall s b kv, fromhex s = Some b -> String.length b = 20%nat -> claim = JObj kv ->
     assoc_lookup (pystr "name") kv = None ->
     claimtrie_getclaimbyid st db_height (JStr s) claim = inr SKeyError).
Proof.
  assert (Hok : forall s b, fromhex s = Some b -> String.length b = 20%nat ->
     claimtrie_getclaimbyid st db_height (JStr s) claim =
       format_claim_from_daemon st db_height claim JNull).
  { intros s b Hs Hb. unfold claimtrie_getclaimbyid, assert_claim_id, assert_hash_length.
    rewrite Hs, Hb. reflexivity. }
  split; [|split; [|split; [exact Hok|]]].
  - intros j Hj. unfold claimtrie_getclaimbyid, assert_claim_id, assert_hash_length.
    destruct j; try reflexivity. exfalso. eapply Hj. reflexivity.
  - intros s Hs. unfold claimtrie_getclaimbyid, assert_claim_id, assert_hash_length.
    destruct (fromhex s) as [b|]; [|reflexivity].
    apply Nat.eqb_neq in Hs. rewrite Hs. reflexivity.
  - intros s b kv Hs Hb -> Hn. rewrite (Hok s b Hs Hb). unfold format_claim_from_daemon.
    simpl json_truthy. cbn iota. unfold getitem at 1. rewrite Hn. reflexivity.
Qed.

End SessionTheorems.

Lemma find_some_spec {A} (f : A -> bool) (l : list A) (x : A) :
  find f l = Some x -> x ∈ l /\ f x = true.
Proof.
  induction l as [|y r IH]; simpl; [discriminate|].
  destruct (f y) eqn:Ey.
  - injection 1 as <-. split; [left|exact Ey].
  - intros E. destruct (IH E) as [Hin Hf]. split; [right; exact Hin|exact Hf].
Qed.

Lemma find_none_spec {A} (f : A -> bool) (l : list A) :
  find f l = None -> Forall (fun x => f x = false) l.
Proof.
  induction l as [|y r IH]; simpl; [constructor|].
  destruct (f y) eqn:Ey; [discriminate|]. intros E. constructor; [exact Ey|apply IH, E].
Qed.

Lemma pack_u32_be_range (n : Z) (k : string) : pack_u32_be n = Some k -> 0 <= n < 2 ^ 32.
Proof.
  unfold pack_u32_be. destruct ((0 <=? n) && (n <? 2 ^ 32)) eqn:E; [|discriminate].
  intros _. apply andb_true_iff in E as [E1 E2]. apply Z.leb_le in E1. apply Z.ltb_lt in E2. lia.
Qed.

Lemma pack_u32_be_inj (a b : Z) (k : string) :
  pack_u32_be a = Some k -> pack_u32_be b = Some k -> a = b.
Proof.
  intros Ea Eb.
  destruct (pack_u32_be_big_endian a (pack_u32_be_range a k Ea)) as (pa & Epa & _ & Va).
  destruct (pack_u32_be_big_endian b (pack_u32_be_range b k Eb)) as (pb & Epb & _ & Vb).
  rewrite Ea in Epa. rewrite Eb in Epb. injection Epa as <-. injection Epb as <-. congruence.
Qed.

(** ** Signature checks, update inputs and the undo journal *)

Section ProcessorOutcomes.
Context `{Hashing} `{Schema}.

(** [_checksig] never raises and never changes the state; a certificate id
    it returns is the reversed, non-empty certificate id of the claim's
    payload, for a name that parses, and when signatures are validated it
    names a known claim whose value validates the signature. *)
Theorem checksig_outcome (name value address : string) (st : State) :
  exists r, _checksig name value address st = Ok r st /\
  forall c, r = Some c ->
    parse_lbry_uri_ok name = true /\
    (exists raw, certificate_id_of value = Some raw /\ string_rev raw = c) /\ c <> EmptyString /\
    (should_validate_signatures st = true ->
       exists cc, get_claim_info c st = Ok (Some cc) st /\
                  signature_valid value address (ci_value cc) = true).
Proof.
  unfold _checksig. destruct (parse_lbry_uri_ok name) eqn:Ep; simpl;
    [|eexists; split; [reflexivity|discriminate]].
  destruct (certificate_id_of value) as [raw|] eqn:Ec;
    [|eexists; split; [reflexivity|discriminate]].
  unfold bind, gets. destruct (String.eqb (string_rev raw) EmptyString) eqn:Ee.
  - destruct (should_validate_signatures st); simpl;
      (eexists; split; [reflexivity|discriminate]).
  - apply String.eqb_neq in Ee. destruct (should_validate_signatures st) eqn:Ev; cbn [negb].
    + destruct (get_claim_info (string_rev raw) st) as [cc st1|e] eqn:Eg.
      * unfold get_claim_info, gets in Eg. injection Eg as Ecc <-.
        destruct cc as [cc|]; [destruct (signature_valid value address (ci_value cc)) eqn:Es|].
        -- eexists; split; [reflexivity|]. injection 1 as <-.
           split; [reflexivity|split; [eauto|split; [exact Ee|]]].
           intros _. exists cc. split; [|exact Es]. unfold get_claim_info, gets. rewrite Ecc. reflexivity.
        -- eexists; split; [reflexivity|discriminate].
        -- eexists; split; [reflexivity|discriminate].
      * unfold get_claim_info, gets in Eg. discriminate Eg.
    + eexists; split; [reflexivity|]. injection 1 as <-.
      split; [reflexivity|split; [eauto|split; [exact Ee|discriminate]]].
Qed.

(** [get_update_input] never raises and never changes the state; an input
    it returns is one of the transaction's inputs and spends the outpoint
    the claim is stored at; it returns no input for a known claim only when
    no input spends that outpoint. *)
Theorem get_update_input_outcome (claim_id : string) (inputs : list TxInput) (st : State) :
  exists r, get_update_input claim_id inputs st = Ok r st /\
  (forall i, r = Some i -> i ∈ inputs /\
     exists ci, get_claim_info claim_id st = Ok (Some ci) st /\
                prev_hash i = ci_txid ci /\ prev_idx i = ci_nout ci) /\
  (r = None -> forall ci, get_claim_info claim_id st = Ok (Some ci) st ->
     Forall (fun i => ~ (prev_hash i = ci_txid ci /\ prev_idx i = ci_nout ci)) inputs).
Proof.
  unfold get_update_input, bind. destruct (get_claim_info claim_id st) as [ci st1|e] eqn:Eg;
    [|unfold get_claim_info, gets in Eg; discriminate Eg].
  assert (st1 = st) as -> by (unfold get_claim_info, gets in Eg; congruence).
  destruct ci as [ci|].
  - eexists; split; [reflexivity|]. split.
    + intros i Ei. apply find_some_spec in Ei as [Hin Hf]. split; [exact Hin|].
      exists ci. apply andb_true_iff in Hf as [Hh Hi].
      apply String.eqb_eq in Hh. apply Z.eqb_eq in Hi. auto.
    + intros En ci' Eg'. injection Eg' as <-.
      apply find_none_spec in En. eapply Forall_impl; [exact En|]. simpl.
      intros i Hf [Hh Hi]. rewrite Hh, Hi, String.eqb_refl, Z.eqb_refl in Hf. discriminate Hf.
  - eexists; split; [reflexivity|]. split; [discriminate|]. intros _ ci' Eg'. congruence.
Qed.

Lemma write_undo_other (p : list (Z * list UndoEntry)) (s s' : State) (key : string) :
  write_undo p s = Ok tt s' -> (forall h u, (h, u) ∈ p -> pack_u32_be h <> Some key) ->
  claim_undo_db s' !! key = claim_undo_db s !! key.
Proof.
  revert s. induction p as [|[h0 u0] rest IH]; intros s E Hk; simpl in E.
  - injection E as <-. reflexivity.
  - destruct (pack_u32_be h0) as [k0|] eqn:Ek; [|discriminate E].
    unfold bind, modify in E. rewrite (IH _ E).
    + simpl. apply lookup_insert_ne. intros ->. apply (Hk h0 u0); [left|exact Ek].
    + intros h u Hin. apply (Hk h u). right. exact Hin.
Qed.

Lemma write_undo_lookup (p : list (Z * list UndoEntry)) (s s' : State) (i : nat) (h : Z)
    (u : list UndoEntry) :
  write_undo p s = Ok tt s' -> p !! i = Some (h, u) ->
  (forall j h' u', (i < j)%nat -> p !! j = Some (h', u') -> h' <> h) ->
  exists key, pack_u32_be h = Some key /\ claim_undo_db s' !! key = Some u.
Proof.
  revert s i. induction p as [|[h0 u0] rest IH]; intros s i E Hi Hlater; [discriminate Hi|].
  simpl in E. destruct (pack_u32_be h0) as [k0|] eqn:Ek; [|discriminate E].
  unfold bind, modify in E. destruct i as [|i].
  - injection Hi as <- <-. exists k0. split; [exact Ek|].
    rewrite (write_undo_other _ _ _ k0 E).
    + simpl. apply lookup_insert_eq.
    + intros h' u' Hin Ek'. apply list_elem_of_lookup_1 in Hin as [j Hj].
      apply (Hlater (S j) h' u'); [lia|exact Hj|]. exact (pack_u32_be_inj _ _ _ Ek' Ek).
  - apply (IH _ i E Hi). intros j h' u' Hj. apply (Hlater (S j)). lia.
Qed.

Lemma advance_claim_blocks_heights (blocks : list (list (Tx * string))) (h : Z) (s s' : State)
    (p : list (Z * list UndoEntry)) :
  advance_claim_blocks blocks h s = Ok p s' ->
  List.length p = List.length blocks /\ forall i hu u, p !! i = Some (hu, u) -> hu = h + Z.of_nat i.
Proof.
  revert h s s' p. induction blocks as [|b rest IH]; intros h s s' p E.
  - injection E as <- _. split; [reflexivity|]. intros i hu u Hi. discriminate Hi.
  - change (advance_claim_blocks (b :: rest) h) with
      (undo <- advance_claim_txs b h ;; pending <- advance_claim_blocks rest (h + 1) ;;
       ret ((h, undo) :: pending)) in E.
    unfold bind in E. destruct (advance_claim_txs b h s) as [undo s1|e]; [|discriminate E].
    destruct (advance_claim_blocks rest (h + 1) s1) as [pend s2|e] eqn:Er; [|discriminate E].
    injection E as <- _. destruct (IH _ _ _ _ Er) as [Hl Hh]. split; [simpl; lia|].
    intros [|i] hu u Hi.
    + injection Hi as <- _. lia.
    + apply Hh in Hi. lia.
Qed.

(** [advance_blocks]: the i-th block is processed at height [height + i],
    and when the blocks are advanced, the undo list of each block is stored
    in the undo database under the packed height of that block, where
    [backup_txs] reads it back. *)
Theorem advance_blocks_journals_undo (blocks : list (list (Tx * string))) (h : Z)
    (st st' : State) :
  advance_blocks blocks h st = Ok tt st' ->
  exists pending st1, advance_claim_blocks blocks h st = Ok pending st1 /\
    List.length pending = List.length blocks /\
    forall i hu u, pending !! i = Some (hu, u) ->
      hu = h + Z.of_nat i /\
      exists key, pack_u32_be hu = Some key /\ claim_undo_db st' !! key = Some u.
Proof.
  unfold advance_blocks, bind. intros E.
  destruct (advance_claim_blocks blocks h st) as [p st1|e] eqn:Ep; [|discriminate E].
  destruct (advance_claim_blocks_heights _ _ _ _ _ Ep) as [Hl Hh].
  exists p, st1. split; [reflexivity|]. split; [exact Hl|].
  intros i hu u Hi. split; [exact (Hh _ _ _ Hi)|].
  apply (write_undo_lookup p st1 st' i hu u E Hi).
  intros j h' u' Hij Hj. rewrite (Hh _ _ _ Hj), (Hh _ _ _ Hi). lia.
Qed.
End ProcessorOutcomes.

(** ** The properties at concrete states *)

Lemma flush_empty_caches_is_noop_witness :
  claim_cache stored_state = ∅ /\ claims_for_name_cache stored_state = ∅ /\
  claims_signed_by_cert_cache stored_state = ∅ /\ outpoint_to_claim_id_cache stored_state = ∅ /\
  pending_abandons stored_state = [] /\
  flush_claims stored_state = Ok tt stored_state.
Proof.
  split; [reflexivity|split; [reflexivity|split; [reflexivity|split; [reflexivity|split; [reflexivity|]]]]].
  exact (flush_empty_caches_is_noop stored_state eq_refl eq_refl eq_refl eq_refl eq_refl).
Defined.

Lemma flush_keeps_name_and_cert_reads_witness :
  pending_abandons three_claims_state = [] /\
  get_claims_for_name "name" three_claims_state = Ok three_claims three_claims_state /\
  flush_claims three_claims_state = Ok tt (flushed three_claims_state) /\
  get_claims_for_name "name" (flushed three_claims_state) = Ok three_claims (flushed three_claims_state).
Proof.
  assert (Hg : get_claims_for_name "name" three_claims_state = Ok three_claims three_claims_state)
    by (vm_compute; reflexivity).
  destruct (flush_keeps_name_and_cert_reads three_claims_state eq_refl) as (Hf & _ & _ & Hn & _).
  split; [reflexivity|split; [exact Hg|split; [exact Hf|exact (Hn _ _ Hg)]]].
Defined.

Lemma flush_settles_staged_reads_witness :
  pending_abandons (set_claim_cache {[ "cid" := None ]} stored_state) = [] /\
  get_claim_info "cid" (flushed (set_claim_cache {[ "cid" := None ]} stored_state)) =
    Ok None (flushed (set_claim_cache {[ "cid" := None ]} stored_state)).
Proof.
  split; [reflexivity|].
  rewrite (proj1 (flush_settles_staged_reads (set_claim_cache {[ "cid" := None ]} stored_state) eq_refl)
             "cid").
  reflexivity.
Defined.

Lemma put_claim_for_name_sequence_witness :
  get_claims_for_name "name" three_claims_state = Ok three_claims three_claims_state /\
  exists st' d', put_claim_for_name "name" "id4" three_claims_state = Ok tt st' /\
    get_claims_for_name "name" st' = Ok d' st' /\ d' !! "id4" = Some 4.
Proof.
  assert (Hg : get_claims_for_name "name" three_claims_state = Ok three_claims three_claims_state)
    by (vm_compute; reflexivity).
  split; [exact Hg|].
  destruct (put_claim_for_name_sequence three_claims_state "name" "id4" three_claims Hg)
    as (st' & d' & E1 & E2 & E3 & _).
  exists st', d'. split; [exact E1|split; [exact E2|]]. rewrite E3. vm_compute. reflexivity.
Defined.

Lemma put_claim_for_name_keeps_compact_witness :
  get_claims_for_name "name" three_claims_state = Ok three_claims three_claims_state /\
  compact_sequences three_claims /\
  exists st' d', put_claim_for_name "name" "id4" three_claims_state = Ok tt st' /\
    get_claims_for_name "name" st' = Ok d' st' /\ compact_sequences d' /\ d' !! "id4" <> None.
Proof.
  assert (Hg : get_claims_for_name "name" three_claims_state = Ok three_claims three_claims_state)
    by (vm_compute; reflexivity).
  assert (Hc : compact_sequences three_claims)
    by (apply (bool_decide_unpack _); vm_compute; reflexivity).
  split; [exact Hg|split; [exact Hc|]].
  exact (put_claim_for_name_keeps_compact three_claims_state "name" "id4" three_claims Hg Hc).
Defined.

Lemma remove_claim_for_name_keeps_compact_witness :
  get_claims_for_name "name" three_claims_state = Ok three_claims three_claims_state /\
  compact_sequences three_claims /\ three_claims !! "id2" = Some 2 /\
  exists st' d', remove_claim_for_name "name" "id2" three_claims_state = Ok tt st' /\
    get_claims_for_name "name" st' = Ok d' st' /\ compact_sequences d' /\ d' !! "id2" = None.
Proof.
  assert (Hg : get_claims_for_name "name" three_claims_state = Ok three_claims three_claims_state)
    by (vm_compute; reflexivity).
  assert (Hc : compact_sequences three_claims)
    by (apply (bool_decide_unpack _); vm_compute; reflexivity).
  assert (Hk : three_claims !! "id2" = Some 2) by (vm_compute; reflexivity).
  split; [exact Hg|split; [exact Hc|split; [exact Hk|]]].
  exact (remove_claim_for_name_keeps_compact three_claims_state "name" "id2" three_claims 2 Hg Hc Hk).
Defined.


Lemma outpoint_index_out_of_range_witness :
  ~ (0 <= 2 ^ 32 < 2 ^ 32) /\
  put_claim_id_for_outpoint "txa" (2 ^ 32) None stored_state = Err StructError /\
  get_claim_id_from_outpoint "txa" (2 ^ 32) stored_state = Err StructError.
Proof.
  assert (Hr : ~ (0 <= 2 ^ 32 < 2 ^ 32)) by lia.
  destruct (outpoint_index_out_of_range "txa" (2 ^ 32) None stored_state Hr) as (H1 & _ & H3 & _).
  split; [exact Hr|split; [exact H1|exact H3]].
Defined.

Lemma outpoint_put_get_witness :
  0 <= 2 < 2 ^ 32 /\ "cid" <> EmptyString /\
  exists st', put_claim_id_for_outpoint "txa" 2 (Some "cid") stored_state = Ok tt st' /\
    get_claim_id_from_outpoint "txa" 2 st' = Ok (Some "cid") st'.
Proof.
  assert (Hr : 0 <= 2 < 2 ^ 32) by lia.
  assert (Hc : "cid" <> EmptyString) by discriminate.
  split; [exact Hr|split; [exact Hc|]].
  destruct (outpoint_put_get "txa" 2 "cid" stored_state Hr Hc) as (st' & E1 & E2 & _).
  exists st'. split; [exact E1|exact E2].
Defined.

Lemma abandon_spent_outcomes_witness :
  get_claim_id_from_outpoint "txa" 1 stored_state = Ok (Some "cid") stored_state /\
  exists st', abandon_spent "txa" 1 stored_state = Ok (Some "cid") st' /\
    pending_get "cid" (pending_abandons st') = Some [("txa", 1)].
Proof.
  assert (Hg : get_claim_id_from_outpoint "txa" 1 stored_state = Ok (Some "cid") stored_state)
    by (vm_compute; reflexivity).
  split; [exact Hg|].
  destruct (proj2 (abandon_spent_outcomes "txa" 1 stored_state (Some "cid") Hg) "cid" eq_refl eq_refl)
    as (st' & E1 & E2 & _).
  exists st'. split; [exact E1|]. rewrite E2. reflexivity.
Defined.

Lemma put_signed_appends_witness :
  get_signed_claim_ids_by_cert_id "cert" stored_state = Ok [] stored_state /\
  exists st', put_claim_id_signed_by_cert_id "cert" "cid" stored_state = Ok tt st' /\
    get_signed_claim_ids_by_cert_id "cert" st' = Ok ["cid"] st'.
Proof.
  assert (Hg : get_signed_claim_ids_by_cert_id "cert" stored_state = Ok [] stored_state)
    by (vm_compute; reflexivity).
  split; [exact Hg|].
  destruct (put_signed_appends "cert" "cid" stored_state [] Hg) as (st' & E1 & E2 & _).
  exists st'. split; [exact E1|exact E2].
Defined.

Lemma remove_from_cert_drops_first_witness :
  get_signed_claim_ids_by_cert_id "cert" (set_cert_cache {[ "cert" := ["a"; "b"; "a"] ]} empty_state)
    = Ok ["a"; "b"; "a"] (set_cert_cache {[ "cert" := ["a"; "b"; "a"] ]} empty_state) /\
  exists st' l',
    remove_claim_from_certificate_claims "cert" "a"
      (set_cert_cache {[ "cert" := ["a"; "b"; "a"] ]} empty_state) = Ok tt st' /\
    get_signed_claim_ids_by_cert_id "cert" st' = Ok l' st' /\ l' = ["b"; "a"].
Proof.
  assert (Hg : get_signed_claim_ids_by_cert_id "cert"
                 (set_cert_cache {[ "cert" := ["a"; "b"; "a"] ]} empty_state)
               = Ok ["a"; "b"; "a"] (set_cert_cache {[ "cert" := ["a"; "b"; "a"] ]} empty_state))
    by (vm_compute; reflexivity).
  split; [exact Hg|].
  destruct (remove_from_cert_drops_first "cert" "a" _ _ Hg) as (st' & l' & E1 & E2 & E3 & _).
  exists st', l'. split; [exact E1|split; [exact E2|]]. rewrite E3. reflexivity.
Defined.

Lemma name_claim_advance_indexes_witness :
  exists u st',
    advance_claim_name_transaction (mkTxOutput 5 "addr2" (NameClaim "name" "v")) 12 "txc" 0
      stored_state = Ok u st' /\
    fst u <> EmptyString /\ snd u = None /\
    get_claim_id_from_outpoint "txc" 0 st' = Ok (Some (fst u)) st'.
Proof.
  destruct (advance_claim_name_transaction (mkTxOutput 5 "addr2" (NameClaim "name" "v")) 12 "txc" 0
              stored_state) as [u st'|e] eqn:E;
    [|vm_compute in E; discriminate E].
  pose proof E as E'. vm_compute in E'. injection E' as Eu _.
  assert (Hu : fst u <> EmptyString) by (rewrite <- Eu; discriminate).
  destruct (name_claim_advance_indexes _ _ _ _ _ _ _ E Hu) as (Hs & ci & d & d' & _ & _ & _ & _ & _ & _ & _ & _ & Ho).
  exists u, st'. split; [reflexivity|split; [exact Hu|split; [exact Hs|exact Ho]]].
Defined.

Lemma backup_restores_undo_info_witness :
  backup_from_undo_info "cid" (Some demo_claim) stored_state =
    Ok tt (final_state (backup_from_undo_info "cid" (Some demo_claim) stored_state) stored_state) /\
  "cid" <> EmptyString /\
  get_claim_info "cid" (final_state (backup_from_undo_info "cid" (Some demo_claim) stored_state) stored_state)
    = Ok (Some demo_claim)
        (final_state (backup_from_undo_info "cid" (Some demo_claim) stored_state) stored_state).
Proof.
  assert (E : backup_from_undo_info "cid" (Some demo_claim) stored_state =
    Ok tt (final_state (backup_from_undo_info "cid" (Some demo_claim) stored_state) stored_state))
    by (vm_compute; reflexivity).
  assert (Hc : "cid" <> EmptyString) by discriminate.
  split; [exact E|split; [exact Hc|]].
  exact (proj1 (backup_restores_undo_info "cid" demo_claim _ _ E Hc)).
Defined.

Lemma spending_claim_outpoint_queues_abandon_witness :
  has_claims (mkTx [mkTxInput "txa" 1] []) = false /\
  get_claim_id_from_outpoint "txa" 1 stored_state = Ok (Some "cid") stored_state /\
  get_claim_info "cid" stored_state = Ok (Some demo_claim) stored_state /\
  exists st', advance_claim_tx (mkTx [mkTxInput "txa" 1] []) "txb" 11 stored_state
      = Ok [("cid", Some demo_claim)] st' /\
    pending_get "cid" (pending_abandons st') = Some [("txa", 1)].
Proof.
  assert (Hg : get_claim_id_from_outpoint "txa" 1 stored_state = Ok (Some "cid") stored_state)
    by (vm_compute; reflexivity).
  assert (Hi : get_claim_info "cid" stored_state = Ok (Some demo_claim) stored_state)
    by (vm_compute; reflexivity).
  split; [reflexivity|split; [exact Hg|split; [exact Hi|]]].
  destruct (spending_claim_outpoint_queues_abandon (mkTx [mkTxInput "txa" 1] []) "txb" 11
              (mkTxInput "txa" 1) "cid" (Some demo_claim) stored_state
              eq_refl eq_refl Hg ltac:(discriminate) Hi) as (st' & E1 & E2 & _).
  exists st'. split; [exact E1|]. rewrite E2. reflexivity.
Defined.

Lemma flush_completes_abandon_witness :
  pending_abandons (set_pending [("cid", [("txa", 1)])] stored_state) = [("cid", [("txa", 1)])] /\
  get_claim_info "cid" (set_pending [("cid", [("txa", 1)])] stored_state)
    = Ok (Some demo_claim) (set_pending [("cid", [("txa", 1)])] stored_state) /\
  exists st', flush_claims (set_pending [("cid", [("txa", 1)])] stored_state) = Ok tt st' /\
    claims_db st' !! "cid" = None /\ get_claim_id_from_outpoint "txa" 1 st' = Ok None st'.
Proof.
  assert (Hi : get_claim_info "cid" (set_pending [("cid", [("txa", 1)])] stored_state)
                 = Ok (Some demo_claim) (set_pending [("cid", [("txa", 1)])] stored_state))
    by (vm_compute; reflexivity).
  assert (Hn : get_claims_for_name "name" (set_pending [("cid", [("txa", 1)])] stored_state)
                 = Ok {[ "cid" := 1 ]} (set_pending [("cid", [("txa", 1)])] stored_state))
    by (vm_compute; reflexivity).
  assert (Hos : Forall (fun o : string * Z => 0 <= snd o < 2 ^ 32) [("txa", 1)])
    by (repeat constructor; simpl; lia).
  assert (Hd : ({[ "cid" := 1 ]} : NamesDict) !! "cid" <> None) by (vm_compute; congruence).
  split; [reflexivity|split; [exact Hi|]].
  destruct (flush_completes_abandon (set_pending [("cid", [("txa", 1)])] stored_state) "cid" demo_claim [("txa", 1)] {[ "cid" := 1 ]}
              eq_refl Hos Hi Hn Hd) as (st' & E1 & E2 & _ & _ & _ & E6).
  exists st'. split; [exact E1|split; [exact E2|]]. apply E6. left.
Defined.

Lemma format_claim_from_daemon_index_witness :
  exists out, format_claim_from_daemon stored_state 20 daemon_claim (JStr (pystr "name")) = inl out /\
    json_get out (pystr "claim_sequence") = inl (JInt 1) /\
    json_get out (pystr "address") = inl (JStr (pystr "addr")).
Proof.
  destruct (format_claim_from_daemon stored_state 20 daemon_claim (JStr (pystr "name")))
    as [out|e] eqn:E; [|vm_compute in E; discriminate E].
  assert (Hn : json_truthy (JStr (pystr "name")) = true /\ JStr (pystr "name") = JStr (pystr "name") \/
               json_truthy (JStr (pystr "name")) = false /\
               assoc_lookup (pystr "name") (match daemon_claim with JObj kv => kv | _ => [] end) =
                 Some (JStr (pystr "name")))
    by (left; split; reflexivity).
  assert (Hid : assoc_lookup (pystr "claimId") (match daemon_claim with JObj kv => kv | _ => [] end) =
                  Some (JStr (hexlify (string_rev "cid")))) by (vm_compute; reflexivity).
  assert (Hci : get_claim_info "cid" stored_state = Ok (Some demo_claim) stored_state)
    by (vm_compute; reflexivity).
  assert (Ha : utf8_decode (ci_address demo_claim) = Some (pystr "addr")) by (vm_compute; reflexivity).
  assert (H256 : forallb (fun c => c <? 256) (pystr "name") = true) by (vm_compute; reflexivity).
  assert (Hd : get_claims_for_name (string_of_list_ascii (map byte_of (pystr "name"))) stored_state
                 = Ok {[ "cid" := 1 ]} stored_state) by (vm_compute; reflexivity).
  destruct (proj2 (format_claim_from_daemon_index stored_state 20
                     (match daemon_claim with JObj kv => kv | _ => [] end)
                     (JStr (pystr "name")) (pystr "name") "cid" Hn Hid)
              demo_claim (pystr "addr") {[ "cid" := 1 ]} Hci Ha H256 Hd) as [_ Hs].
  destruct (Hs out E) as (k & Hk & Hseq & Haddr & _).
  vm_compute in Hk. injection Hk as <-.
  exists out. split; [reflexivity|split; [exact Hseq|exact Haddr]].
Defined.

Lemma format_claim_from_daemon_fallbacks_witness :
  exists out, format_claim_from_daemon stored_state 20 daemon_claim (JStr (pystr "name")) = inl out /\
    json_get out (pystr "depth") = inl (JInt 10) /\
    json_get out (pystr "amount") = inl (JInt 20).
Proof.
  destruct (format_claim_from_daemon stored_state 20 daemon_claim (JStr (pystr "name")))
    as [out|e] eqn:E; [|vm_compute in E; discriminate E].
  destruct (format_claim_from_daemon_fallbacks stored_state 20
              (match daemon_claim with JObj kv => kv | _ => [] end) (JStr (pystr "name")) out E)
    as (Hh & _ & _ & Ham).
  destruct (Hh 10 ltac:(vm_compute; reflexivity) ltac:(discriminate)) as [_ Hdepth].
  exists out. split; [reflexivity|split; [exact Hdepth|]].
  exact (Ham 20 ltac:(vm_compute; reflexivity) ltac:(vm_compute; reflexivity)).
Defined.

Lemma claimtrie_getclaimbyid_checks_witness :
  fromhex (pystr "0123456789ABCDEF0123 456789abcdef01234567") =
    fromhex (pystr "0123456789abcdef0123456789abcdef01234567") /\
  claimtrie_getclaimbyid empty_state 20 (JStr (pystr "0123456789ABCDEF0123 456789abcdef01234567"))
    (JObj []) = inr SKeyError /\
  claimtrie_getclaimbyid empty_state 20 (JInt 5) (JObj []) =
    inr (SRPCError (JInt 5) (pystr " should be a claim id hash")).
Proof.
  split; [vm_compute; reflexivity|].
  destruct (claimtrie_getclaimbyid_checks empty_state 20 (JObj [])) as (Hj & _ & _ & Hk).
  split.
  - apply (Hk _ (string_of_list_ascii
                   (map (fun z => ascii_of_N (Z.to_N z))
                      [1; 35; 69; 103; 137; 171; 205; 239; 1; 35; 69; 103; 137; 171; 205; 239;
                       1; 35; 69; 103]%Z)) []);
      [vm_compute; reflexivity | reflexivity | reflexivity | reflexivity].
  - apply Hj. discriminate.
Defined.

Lemma advance_blocks_journals_undo_witness :
  exists st', advance_blocks [[(update_tx, "txb")]] 11 stored_state = Ok tt st' /\
    exists key, pack_u32_be 11 = Some key /\
      claim_undo_db st' !! key = Some [("cid", Some demo_claim)].
Proof.
  destruct (advance_blocks [[(update_tx, "txb")]] 11 stored_state) as [[] st'|e] eqn:E;
    [|vm_compute in E; discriminate E].
  destruct (advance_blocks_journals_undo _ _ _ _ E) as (p & st1 & Ep & _ & Hp).
  pose proof Ep as Ep'. vm_compute in Ep'. injection Ep' as Hpv _.
  assert (Hp0 : p !! 0%nat = Some (11, [("cid", Some demo_claim)])) by (rewrite <- Hpv; reflexivity).
  destruct (Hp _ _ _ Hp0) as [_ Hk].
  exists st'. split; [reflexivity|exact Hk].
Defined.

(** ** Flushing twice *)

Section FlushTwice.
Context `{Hashing} `{Schema}.

Lemma flush_claims_final (st st' : State) :
  flush_claims st = Ok tt st' ->
  claim_cache st' = ∅ /\ claims_for_name_cache st' = ∅ /\ claims_signed_by_cert_cache st' = ∅ /\
  outpoint_to_claim_id_cache st' = ∅ /\ pending_abandons st' = [].
Proof.
  unfold flush_claims, bind, gets, modify. destruct (drain_abandons (pending_abandons st) st) as [[] s|e];
    [|discriminate]. injection 1 as <-. repeat split.
Qed.

(** After a successful [flush_claims], the claim part of [assert_flushed]
    passes, and flushing again changes nothing. *)
Theorem flush_claims_then_flushed (st st' : State) :
  flush_claims st = Ok tt st' ->
  assert_flushed st' = Ok tt st' /\ flush_claims st' = Ok tt st'.
Proof.
  intros E. destruct (flush_claims_final st st' E) as (H1 & H2 & H3 & H4 & H5). split.
  - unfold assert_flushed, py_assert, bind, get_state. rewrite H1, H2, H3, H4, H5. reflexivity.
  - rewrite flush_claims_no_pending by exact H5. f_equal.
    unfold flushed, write_claims, write_names, write_certs, write_outpoints.
    rewrite H1, H2, H3, H4, !map_fold_empty, <- H1, <- H2, <- H3, <- H4, <- H5.
    destruct st'. reflexivity.
Qed.

End FlushTwice.

Lemma flush_claims_then_flushed_witness :
  flush_claims (set_pending [("cid", [("txa", 1)])] stored_state) =
    Ok tt (final_state (flush_claims (set_pending [("cid", [("txa", 1)])] stored_state)) stored_state) /\
  assert_flushed
    (final_state (flush_claims (set_pending [("cid", [("txa", 1)])] stored_state)) stored_state) =
    Ok tt (final_state (flush_claims (set_pending [("cid", [("txa", 1)])] stored_state)) stored_state).
Proof.
  assert (E : flush_claims (set_pending [("cid", [("txa", 1)])] stored_state) =
    Ok tt (final_state (flush_claims (set_pending [("cid", [("txa", 1)])] stored_state)) stored_state))
    by (vm_compute; reflexivity).
  split; [exact E|exact (proj1 (flush_claims_then_flushed _ _ E))].
Defined.
